(** * Form scanner: LLM reply parsing, two-phase analysis and iframe aggregation

    A shallow embedding of the two services of the form scanner,
    [services/gemini.service.js] (class GeminiService) and
    [services/html-fetcher.service.js] (class HtmlFetcherService), and the
    properties of them that the specification states.

    JavaScript values are modelled as the code uses them:
    - a JS number is an IEEE binary64 value, Rocq's primitive [float];
      array lengths and counts derived from them are integers far below 2^53,
      on which JS arithmetic is exact, and are kept in [Z];
    - a JS string is a [string]: the sequence of bytes of its UTF-8 encoding
      (every delimiter the code looks for is ASCII, so searching bytes and
      searching UTF-16 code units find the same places);
    - data decoded from JSON is a [json] tree; objects the code builds with a
      fixed set of keys are records;
    - an [async] function that may throw returns an [outcome];
    - what the network, the clock and the remote model answer are arguments. *)

From Stdlib Require Import Bool Arith ZArith Lia List Ascii String DecimalString Floats.
Import ListNotations.

Set Warnings "-inexact-float,-register-all".

Local Open Scope list_scope.
Local Open Scope string_scope.

(** ** Exceptions and results of calls *)

(** The exceptions of the modelled code.  [Error] is [new Error(message)]
    thrown by the services themselves; [TypeError] and [SyntaxError] are raised
    by the engine, and their message texts are the engine's (V8's wording is
    used; no property below depends on it). *)
Inductive exn : Type :=
| Error (message : string)
| TypeError (message : string)
| SyntaxError (message : string).

Definition message (e : exn) : string :=
  match e with
  | Error m | TypeError m | SyntaxError m => m
  end.

(** What a call does: it returns, it throws, or it leaves the typed fragment
    of JavaScript that this development covers ([Unmodelled], see
    [roundedUsage] and [checkedUrl]). *)
Inductive outcome (A : Type) : Type :=
| Returns (a : A)
| Throws (e : exn)
| Unmodelled.

Arguments Returns {A} a.
Arguments Throws {A} e.
Arguments Unmodelled {A}.

Definition bind {A B : Type} (c : outcome A) (k : A -> outcome B) : outcome B :=
  match c with
  | Returns a => k a
  | Throws e => Throws e
  | Unmodelled => Unmodelled
  end.

(** [try c catch h]: an exception of [c] is handled by [h]. *)
Definition try_catch {A : Type} (c : outcome A) (h : exn -> outcome A) : outcome A :=
  match c with
  | Throws e => h e
  | _ => c
  end.

Declare Scope outcome_scope.
Delimit Scope outcome_scope with outcome.
Notation "x <- c ;; k" := (bind c (fun x => k))
  (at level 61, c at next level, right associativity) : outcome_scope.

(** ** Strings *)

Module Str.

(** [String.prototype.startsWith]. *)
Definition startsWith (s p : string) : bool := String.prefix p s.

Fixpoint drop (n : nat) (s : string) : string :=
  match n, s with
  | O, _ => s
  | S _, EmptyString => EmptyString
  | S k, String _ r => drop k r
  end.

Definition is_upper (c : ascii) : bool :=
  (65 <=? nat_of_ascii c)%nat && (nat_of_ascii c <=? 90)%nat.

(** ASCII lower-casing; bytes outside A-Z are left alone. *)
Definition lower (c : ascii) : ascii :=
  if is_upper c then ascii_of_nat (nat_of_ascii c + 32) else c.

(** [p] is a prefix of [s] up to ASCII case, as a regular expression with the
    [i] flag matches a pattern made of ASCII characters: a character above
    U+007F never case-folds to an ASCII one there. *)
Fixpoint prefix_ci (p s : string) : bool :=
  match p, s with
  | EmptyString, _ => true
  | String a p', String b s' => Ascii.eqb (lower a) (lower b) && prefix_ci p' s'
  | String _ _, EmptyString => false
  end.

(** Decimal digits of a natural number, as a template literal prints it. *)
Definition of_nat (n : nat) : string :=
  NilEmpty.string_of_uint (Nat.to_uint n).

Definition LF : ascii := ascii_of_nat 10.
Definition nl : string := String LF EmptyString.

(** The double quote, and strings written with apostrophes in its place. *)
Definition dquote : ascii := ascii_of_nat 34.

Fixpoint dq (s : string) : string :=
  match s with
  | EmptyString => EmptyString
  | String c r => String (if Ascii.eqb c "'" then dquote else c) (dq r)
  end.

(** [s.includes(p)]. *)
Fixpoint includes (s p : string) : bool :=
  String.prefix p s ||
  match s with
  | EmptyString => false
  | String _ r => includes r p
  end.

(** [p] occurs in [s] up to ASCII case. *)
Fixpoint includes_ci (s p : string) : bool :=
  prefix_ci p s ||
  match s with
  | EmptyString => false
  | String _ r => includes_ci r p
  end.

Fixpoint all (p : ascii -> bool) (s : string) : bool :=
  match s with
  | EmptyString => true
  | String c r => p c && all p r
  end.

(** UTF-16 code units that a byte of UTF-8 text stands for: one for the
    first byte of a character, two when the character is outside the basic
    plane (first byte from 240 on), none for a continuation byte. *)
Definition units (c : ascii) : Z :=
  let n := nat_of_ascii c in
  if (n <? 128)%nat then 1
  else if (n <? 192)%nat then 0
  else if (n <? 240)%nat then 1
  else 2.

(** [s.length]: the number of UTF-16 code units of [s]. *)
Fixpoint length16 (s : string) : Z :=
  match s with
  | EmptyString => 0
  | String c r => units c + length16 r
  end.

End Str.

(** ** Numbers *)

Module Num.

Local Open Scope float_scope.

(** The binary64 value nearest to the rational [n / d] ([n >= 0], [d > 0]),
    ties to even, with the sign [neg]: what reading a decimal literal or
    [parseFloat] produces. *)
Definition nearest (neg : bool) (n : Z) (d : positive) : float :=
  match n with
  | Zpos p => SF2Prim (SFdiv prec emax (S754_finite neg p 0) (S754_finite false d 0))
  | _ => if neg then neg_zero else zero
  end.

(** An integer as a JS number. *)
Definition of_Z (n : Z) : float :=
  SF2Prim (binary_normalize prec emax n 0 false).

Definition of_nat (n : nat) : float := of_Z (Z.of_nat n).

(** [x || d] on numbers: [0], [-0] and [NaN] are falsy. *)
Definition truthy (x : float) : bool := negb (is_nan x || is_zero x).

Definition or_default (x d : float) : float := if truthy x then x else d.

(** [Number.isFinite]. *)
Definition isFinite (x : float) : bool :=
  match Prim2SF x with
  | S754_zero _ | S754_finite _ _ _ => true
  | S754_infinity _ | S754_nan => false
  end.

(** [Math.round(x)]: the integer nearest to [x], a tie going up; [NaN], the
    infinities, the zeros and integral values are returned unchanged, and a
    negative [x] that rounds to zero gives [-0]. *)
Definition Math_round (x : float) : float :=
  match Prim2SF x with
  | S754_finite s m (Zneg k) =>
      let v := if s then Zneg m else Zpos m in
      let n := ((2 * v + 2 ^ Zpos k) / 2 ^ (Zpos k + 1))%Z in
      if Z.eqb n 0 then (if s then neg_zero else zero) else of_Z n
  | _ => x
  end.

(** [parseFloat(x.toFixed(6))].  [toFixed(6)] prints the integer [n] with
    [n / 10^6] nearest to [|x|] (the larger one on a tie) with six decimals
    and the sign of [x]; [parseFloat] reads that decimal back.  Values that
    [toFixed] prints through [ToString] ([NaN], the infinities, magnitudes
    from [1e21] on) are read back unchanged. *)
Definition toFixed6 (x : float) : float :=
  match Prim2SF x with
  | S754_finite s m e =>
      if 1e21 <=? abs x then x
      else
        let n := match e with
                 | Zneg k => (2 * Zpos m * 1000000 + 2 ^ Zpos k) / 2 ^ (Zpos k + 1)
                 | _ => Zpos m * 2 ^ e * 1000000
                 end%Z in
        nearest s n 1000000
  | S754_zero _ => zero
  | _ => x
  end.

End Num.

(** ** JSON values and [JSON.parse] *)

Module Json.

Inductive json : Type :=
| JNull
| JBool (b : bool)
| JNum (x : float)
| JStr (s : string)
| JArr (items : list json)
| JObj (members : list (string * json)).

(** *** Objects as key/value lists, in order of first insertion

    (JavaScript enumerates integer-like keys first; the services only look
    keys up by name.) *)

Fixpoint assoc (k : string) (kv : list (string * json)) : option json :=
  match kv with
  | [] => None
  | (k', v) :: rest => if String.eqb k k' then Some v else assoc k rest
  end.

(** [obj[k] = v]: an existing key keeps its place and takes the new value. *)
Fixpoint set (k : string) (v : json) (kv : list (string * json)) : list (string * json) :=
  match kv with
  | [] => [(k, v)]
  | (k', v') :: rest =>
      if String.eqb k k' then (k', v) :: rest else (k', v') :: set k v rest
  end.

(** [j.k] for the keys the services read ([forms], [values], [metadata],
    [valueGenerationPerformance], [usage]: none is an array index or a
    built-in property), read from [j] or from a spread copy [{...j}] of it:
    only an object has such a property.  [None] is [undefined]. *)
Definition get (k : string) (j : json) : option json :=
  match j with
  | JObj kv => assoc k kv
  | _ => None
  end.

(** *** Lexical elements *)

Definition is_ws (c : ascii) : bool :=
  match nat_of_ascii c with
  | 32 | 9 | 10 | 13 => true
  | _ => false
  end%nat.

Fixpoint skip_ws (s : string) : string :=
  match s with
  | String c r => if is_ws c then skip_ws r else s
  | EmptyString => s
  end.

Definition digit (c : ascii) : option Z :=
  let n := nat_of_ascii c in
  if (48 <=? n)%nat && (n <=? 57)%nat then Some (Z.of_nat (n - 48)) else None.

Definition hex (c : ascii) : option N :=
  let n := nat_of_ascii c in
  if (48 <=? n)%nat && (n <=? 57)%nat then Some (N.of_nat (n - 48))
  else if (65 <=? n)%nat && (n <=? 70)%nat then Some (N.of_nat (n - 55))
  else if (97 <=? n)%nat && (n <=? 102)%nat then Some (N.of_nat (n - 87))
  else None.

Definition hex4 (a b c d : ascii) : option N :=
  match hex a, hex b, hex c, hex d with
  | Some x, Some y, Some z, Some w => Some (((x * 16 + y) * 16 + z) * 16 + w)%N
  | _, _, _, _ => None
  end.

Definition byte (n : N) : ascii := ascii_of_N n.

(** UTF-8 bytes of a code point; a surrogate that no escape pairs up with is
    written with the three-byte pattern of its value. *)
Definition utf8 (cp : N) : string :=
  (if cp <? 128 then String (byte cp) ""
   else if cp <? 2048 then
     String (byte (192 + cp / 64)) (String (byte (128 + cp mod 64)) "")
   else if cp <? 65536 then
     String (byte (224 + cp / 4096))
       (String (byte (128 + (cp / 64) mod 64)) (String (byte (128 + cp mod 64)) ""))
   else
     String (byte (240 + cp / 262144))
       (String (byte (128 + (cp / 4096) mod 64))
          (String (byte (128 + (cp / 64) mod 64)) (String (byte (128 + cp mod 64)) ""))))%N.

Definition is_high (u : N) : bool := ((55296 <=? u) && (u <=? 56319))%N.
Definition is_low (u : N) : bool := ((56320 <=? u) && (u <=? 57343))%N.

(** The character an escape [\e] other than [\u] stands for. *)
Definition simple_escape (e : ascii) : option ascii :=
  if Ascii.eqb e Str.dquote then Some Str.dquote
  else if Ascii.eqb e "\" then Some "\"%char
  else if Ascii.eqb e "/" then Some "/"%char
  else if Ascii.eqb e "b" then Some (ascii_of_nat 8)
  else if Ascii.eqb e "f" then Some (ascii_of_nat 12)
  else if Ascii.eqb e "n" then Some (ascii_of_nat 10)
  else if Ascii.eqb e "r" then Some (ascii_of_nat 13)
  else if Ascii.eqb e "t" then Some (ascii_of_nat 9)
  else None.

Definition prepend (p : string) (r : option (string * string)) : option (string * string) :=
  match r with
  | Some (body, rest) => Some (p ++ body, rest)
  | None => None
  end.

(** The characters of a string literal after its opening quote, decoded, and
    what follows the closing quote.  A high surrogate escape takes a low
    surrogate escape that follows it directly. *)
Fixpoint string_body (s : string) : option (string * string) :=
  match s with
  | EmptyString => None
  | String c r =>
      if Ascii.eqb c Str.dquote then Some ("", r)
      else if Ascii.eqb c "\" then
        match r with
        | String e r1 =>
            if Ascii.eqb e "u" then
              match r1 with
              | String h1 (String h2 (String h3 (String h4 r2))) =>
                  match hex4 h1 h2 h3 h4 with
                  | Some u =>
                      match r2 with
                      | String b (String x (String l1 (String l2 (String l3 (String l4 r3))))) =>
                          match hex4 l1 l2 l3 l4 with
                          | Some l =>
                              if Ascii.eqb b "\" && Ascii.eqb x "u" && is_high u && is_low l
                              then prepend (utf8 (65536 + (u - 55296) * 1024 + (l - 56320)))
                                     (string_body r3)
                              else prepend (utf8 u) (string_body r2)
                          | None => prepend (utf8 u) (string_body r2)
                          end
                      | _ => prepend (utf8 u) (string_body r2)
                      end
                  | None => None
                  end
              | _ => None
              end
            else
              match simple_escape e with
              | Some a => prepend (String a "") (string_body r1)
              | None => None
              end
        | EmptyString => None
        end
      else if (nat_of_ascii c <? 32)%nat then None
      else prepend (String c "") (string_body r)
  end.

(** A run of decimal digits: the number read so far extended by them, how
    many there were, and the rest. *)
Fixpoint digits (s : string) (acc : Z) (n : nat) : Z * nat * string :=
  match s with
  | String c r =>
      match digit c with
      | Some d => digits r (acc * 10 + d) (S n)
      | None => (acc, n, s)
      end
  | EmptyString => (acc, n, s)
  end.

(** The number [m * 10^e] ([m >= 0]) with the sign [neg], as the nearest
    binary64 value. *)
Definition decimal (neg : bool) (m : Z) (e : Z) : float :=
  match e with
  | Zneg k => Num.nearest neg m (Pos.pow 10 k)
  | _ => if Z.eqb m 0 then Num.nearest neg 0 1
         else Num.of_Z ((if neg then - m else m) * 10 ^ e)%Z
  end.

(** [s] without its first character, when that is [c]. *)
Definition next (c : ascii) (s : string) : option string :=
  match s with
  | String c' r => if Ascii.eqb c c' then Some r else None
  | EmptyString => None
  end.

(** The digits of the integer part. *)
Definition integer (s : string) : option (Z * string) :=
  match s with
  | EmptyString => None
  | String c r =>
      match digit c with
      | None => None
      | Some d => if Z.eqb d 0 then Some (0%Z, r)
                  else let '(ip, _, s2) := digits s 0 0 in Some (ip, s2)
      end
  end.

(** The fraction, if there is one, appended to the digits [ip]: the digits
    read so far and the number of fraction digits. *)
Definition fraction (ip : Z) (s : string) : option (Z * nat * string) :=
  match next "." s with
  | Some r =>
      let '(m, k, s3) := digits r ip 0 in
      match k with
      | O => None
      | S _ => Some (m, k, s3)
      end
  | None => Some (ip, O, s)
  end.

(** The exponent, if there is one. *)
Definition exponent (s : string) : option (Z * string) :=
  match s with
  | String x r =>
      if Ascii.eqb x "e" || Ascii.eqb x "E" then
        let '(eneg, r') :=
          match next "+" r with
          | Some r' => (false, r')
          | None =>
              match next "-" r with
              | Some r' => (true, r')
              | None => (false, r)
              end
          end in
        let '(ev, ek, s') := digits r' 0 0 in
        match ek with
        | O => None
        | S _ => Some (if eneg then (- ev)%Z else ev, s')
        end
      else Some (0%Z, s)
  | EmptyString => Some (0%Z, s)
  end.

(** A number token: an optional minus sign; [0] or a digit run without a
    leading zero; optionally a point and digits; optionally [e] or [E], a
    sign and digits. *)
Definition number (s : string) : option (float * string) :=
  let '(neg, s1) := match next "-" s with
                    | Some r => (true, r)
                    | None => (false, s)
                    end in
  match integer s1 with
  | None => None
  | Some (ip, s2) =>
      match fraction ip s2 with
      | None => None
      | Some (m, k, s3) =>
          match exponent s3 with
          | None => None
          | Some (e, s4) => Some (decimal neg m (e - Z.of_nat k), s4)
          end
      end
  end.

(** *** The value grammar *)

(** Result of parsing a prefix of the input with bounded recursion depth. *)
Inductive parsed : Type :=
| Parsed (v : json) (rest : string)
| Invalid
| OutOfFuel.

Definition keyword (k : string) (v : json) (s : string) : parsed :=
  if String.prefix k s then Parsed v (Str.drop (String.length k) s) else Invalid.

Fixpoint value (fuel : nat) (s : string) : parsed :=
  match fuel with
  | O => OutOfFuel
  | S f =>
      match skip_ws s with
      | EmptyString => Invalid
      | String c r =>
          if Ascii.eqb c "{" then
            match next "}" (skip_ws r) with
            | Some r' => Parsed (JObj []) r'
            | None => members f (skip_ws r) []
            end
          else if Ascii.eqb c "[" then
            match next "]" (skip_ws r) with
            | Some r' => Parsed (JArr []) r'
            | None => elements f (skip_ws r) []
            end
          else if Ascii.eqb c Str.dquote then
            match string_body r with
            | Some (str, r') => Parsed (JStr str) r'
            | None => Invalid
            end
          else if Ascii.eqb c "t" then keyword "true" (JBool true) (String c r)
          else if Ascii.eqb c "f" then keyword "false" (JBool false) (String c r)
          else if Ascii.eqb c "n" then keyword "null" JNull (String c r)
          else
            match number (String c r) with
            | Some (x, r') => Parsed (JNum x) r'
            | None => Invalid
            end
      end
  end

(** The elements of an array after its opening bracket, [acc] holding those
    read so far, latest first. *)
with elements (fuel : nat) (s : string) (acc : list json) : parsed :=
  match fuel with
  | O => OutOfFuel
  | S f =>
      match value f s with
      | Parsed v r =>
          match next "," (skip_ws r) with
          | Some r' => elements f r' (v :: acc)
          | None =>
              match next "]" (skip_ws r) with
              | Some r' => Parsed (JArr (rev (v :: acc))) r'
              | None => Invalid
              end
          end
      | other => other
      end
  end

(** The members of an object after its opening brace; a repeated key takes
    the later value. *)
with members (fuel : nat) (s : string) (acc : list (string * json)) : parsed :=
  match fuel with
  | O => OutOfFuel
  | S f =>
      match next Str.dquote (skip_ws s) with
      | None => Invalid
      | Some r =>
          match string_body r with
          | None => Invalid
          | Some (k, r1) =>
              match next ":" (skip_ws r1) with
              | None => Invalid
              | Some r2 =>
                  match value f r2 with
                  | Parsed v r3 =>
                      match next "," (skip_ws r3) with
                      | Some r4 => members f r4 (set k v acc)
                      | None =>
                          match next "}" (skip_ws r3) with
                          | Some r4 => Parsed (JObj (set k v acc)) r4
                          | None => Invalid
                          end
                      end
                  | other => other
                  end
              end
          end
      end
  end.

(** Recursion depth that no input of this length exhausts
    ([JSON_parse_modelled]). *)
Definition fuel_for (s : string) : nat := 2 * String.length s + 1.

Definition syntax_error : exn := SyntaxError "Unexpected token in JSON".

(** [JSON.parse(text)]: one value between optional white space. *)
Definition JSON_parse (text : string) : outcome json :=
  match value (fuel_for text) text with
  | Parsed v rest =>
      match skip_ws rest with
      | EmptyString => Returns v
      | String _ _ => Throws syntax_error
      end
  | Invalid => Throws syntax_error
  | OutOfFuel => Unmodelled
  end.

End Json.

(** ** The regular expressions of the services *)

Module Regex.

Definition fence : string := "```".

(** The lazy group [([\s\S]*?)] followed by [close]: the shortest run of
    arbitrary characters after which [close] stands. *)
Fixpoint lazy_until (close : string) (s : string) : option string :=
  if String.prefix close s then Some ""
  else
    match s with
    | String c r => option_map (String c) (lazy_until close r)
    | EmptyString => None
    end.

(** A match of [open ([\s\S]*?) \n```] that starts at the head of [s]; the
    result is group 1. *)
Definition fence_here (open : string) (s : string) : option string :=
  if String.prefix open s
  then lazy_until (Str.nl ++ fence) (Str.drop (String.length open) s)
  else None.

(** [s.match(re)] for such an expression: the match at the leftmost position
    that has one; [None] is [null]. *)
Fixpoint fence_match (open : string) (s : string) : option string :=
  match fence_here open s with
  | Some group1 => Some group1
  | None =>
      match s with
      | String _ r => fence_match open r
      | EmptyString => None
      end
  end.

(** [/```json\n([\s\S]*?)\n```/] *)
Definition json_fence (s : string) : option string :=
  fence_match (fence ++ "json" ++ Str.nl) s.

(** [/```\n([\s\S]*?)\n```/] *)
Definition plain_fence (s : string) : option string :=
  fence_match (fence ++ Str.nl) s.

(** *** The iframe expression, flags [gi]

    [<iframe[^>]+src=Q([^Q]+)Q], where [Q] stands for the character class
    of the double quote and the apostrophe. *)

Definition is_quote (c : ascii) : bool :=
  Ascii.eqb c Str.dquote || Ascii.eqb c "'".

(** The characters before the first quote of [s], when [s] has a quote. *)
Fixpoint until_quote (s : string) : option string :=
  match s with
  | EmptyString => None
  | String c r => if is_quote c then Some "" else option_map (String c) (until_quote r)
  end.

(** [([^Q]+)Q] at the head of [s].  The greedy group takes every
    character up to the first quote; giving characters back cannot help,
    since what would then follow the group is not a quote.  The result is
    the group. *)
Definition quoted (s : string) : option string :=
  match until_quote s with
  | Some (String c r) => Some (String c r)
  | _ => None
  end.

(** [src=Q([^Q]+)Q] at the head of [s]: group 1 and the number of
    characters matched. *)
Definition src_attr (s : string) : option (string * nat) :=
  if Str.prefix_ci "src=" s then
    match Str.drop 4 s with
    | String q r =>
        if is_quote q then
          match quoted r with
          | Some group1 => Some (group1, 4 + 1 + String.length group1 + 1)%nat
          | None => None
          end
        else None
    | EmptyString => None
    end
  else None.

(** [[^>]*src=...] at the head of [s]: the greedy star first tries to take
    one more character and falls back to stopping here. *)
Fixpoint tag_rest (s : string) : option (string * nat) :=
  match s with
  | EmptyString => None
  | String c r =>
      if negb (Ascii.eqb c ">") then
        match tag_rest r with
        | Some (group1, n) => Some (group1, S n)
        | None => src_attr s
        end
      else src_attr s
  end.

(** The whole expression at the head of [s]; [[^>]+] is one character other
    than [>] and then [[^>]*]. *)
Definition iframe_here (s : string) : option (string * nat) :=
  if Str.prefix_ci "<iframe" s then
    match Str.drop 7 s with
    | String c r =>
        if negb (Ascii.eqb c ">") then
          match tag_rest r with
          | Some (group1, n) => Some (group1, 7 + 1 + n)%nat
          | None => None
          end
        else None
    | EmptyString => None
    end
  else None.

(** The loop [while ((match = iframeRegex.exec(html)) !== null)] with the
    [g] flag: group 1 of every match, each search starting where the
    previous match ended ([lastIndex]).  [skip] characters still belong to
    the previous match. *)
Fixpoint exec_all (skip : nat) (s : string) : list string :=
  match s with
  | EmptyString => []
  | String _ r =>
      match skip with
      | S k => exec_all k r
      | O =>
          match iframe_here s with
          | Some (group1, n) => group1 :: exec_all (n - 1) r
          | None => exec_all 0 r
          end
      end
  end.

End Regex.

(** ** GeminiService *)

Module GeminiService.

Import Json.
Local Open Scope float_scope.

(** *** Records *)

(** [usage] of a model reply, and [totalUsage] of an analysis. *)
Record Usage : Type := {
  inputTokens : float;
  outputTokens : float;
  totalTokens : float;
  inputCost : float;
  outputCost : float;
  totalCost : float
}.

(** [data.usageMetadata] of the endpoint's answer; a count that is absent is
    [None]. *)
Record UsageMetadata : Type := {
  promptTokenCount : option float;
  candidatesTokenCount : option float;
  totalTokenCount : option float
}.

(** What the endpoint does with one request.  [Rejected e] stands for every
    way [callGeminiAPI] throws inside its [try]: the request fails, the
    status is not a success ([Error "API Error: ..."]), or the body has no
    [candidates[0].content] ([Error "Invalid API response structure"]).
    [Answered text um] is a body with [candidates[0].content.parts[0].text]
    and, when [um] is [Some], with [usageMetadata]. *)
Inductive ApiResponse : Type :=
| Rejected (e : exn)
| Answered (text : string) (usageMetadata : option UsageMetadata).

(** One call to the endpoint: the answer, the two readings of [Date.now()]
    and the value of [new Date().toISOString()]. *)
Record ApiCall : Type := {
  response : ApiResponse;
  startTime : float;
  endTime : float;
  isoTime : string
}.

(** [{ text, timeTaken, timestamp, usage }] returned by [callGeminiAPI]. *)
Record ModelReply : Type := {
  reply_text : string;
  reply_timeTaken : float;
  reply_timestamp : string;
  reply_usage : Usage
}.

(** [{ timeTaken, timestamp }] *)
Record CallPerformance : Type := {
  perf_timeTaken : float;
  perf_timestamp : string
}.

(** [{ ...parsedData, performance, usage }] returned by [extractForms] and
    by [generateFieldValues]: the two keys set after the spread hide keys of
    the same name in [parsedData]. *)
Record ParsedReply : Type := {
  parsedData : json;
  call_performance : CallPerformance;
  call_usage : Usage
}.

(** [{ ...values.performance, usage: values.usage }] *)
Record ValueGenerationPerformance : Type := {
  gen_timeTaken : float;
  gen_timestamp : string;
  gen_usage : Usage
}.

(** An element of [formsWithValues]: [{ ...form, suggestedValues,
    validationStatus, valueGenerationPerformance }], or without the last key
    when value generation failed ([None]).  For the first two keys [None] is
    [undefined]. *)
Record FormWithValues : Type := {
  form : json;
  suggestedValues : option json;
  validationStatus : option json;
  valueGenerationPerformance : option ValueGenerationPerformance
}.

(** [{ extractionTime, valueGenerationTime, totalTime, averageTimePerForm }] *)
Record AnalysisPerformance : Type := {
  extractionTime : float;
  valueGenerationTime : float;
  totalTime : float;
  averageTimePerForm : float
}.

(** [{ ...formsData, forms, timestamp, performance, totalUsage }] returned by
    [analyzeFormsComplete]; [extracted] and [usage] are what the spread of
    [formsData] leaves visible. *)
Record CompleteAnalysis : Type := {
  extracted : json;
  usage : Usage;
  forms : list FormWithValues;
  timestamp : string;
  performance : AnalysisPerformance;
  totalUsage : Usage
}.

(** *** callGeminiAPI *)

(** [(data.usageMetadata || {}).field] *)
Definition field (usageMetadata : option UsageMetadata)
    (f : UsageMetadata -> option float) : option float :=
  match usageMetadata with
  | Some um => f um
  | None => None
  end.

(** [x || d] for a number that may be [undefined]. *)
Definition or_else (x : option float) (d : float) : float :=
  match x with
  | Some n => Num.or_default n d
  | None => d
  end.

Definition callGeminiAPI (call : ApiCall) : outcome ModelReply :=
  match response call with
  | Rejected error => Throws error
  | Answered text usageMetadata =>
      let timeTaken := endTime call - startTime call in
      let inputTokens := or_else (field usageMetadata promptTokenCount) 0 in
      let outputTokens := or_else (field usageMetadata candidatesTokenCount) 0 in
      let totalTokens :=
        or_else (field usageMetadata totalTokenCount) (inputTokens + outputTokens) in
      let inputCost := (inputTokens / 1000) * 0.00125 in
      let outputCost := (outputTokens / 1000) * 0.005 in
      let totalCost := inputCost + outputCost in
      Returns {|
        reply_text := text;
        reply_timeTaken := timeTaken;
        reply_timestamp := isoTime call;
        reply_usage := {|
          inputTokens := inputTokens;
          outputTokens := outputTokens;
          totalTokens := totalTokens;
          inputCost := Num.toFixed6 inputCost;
          outputCost := Num.toFixed6 outputCost;
          totalCost := Num.toFixed6 totalCost
        |}
      |}
  end.

(** *** Parsing the reply

    The statements between [const jsonMatch = ...] and the [JSON.parse]
    calls, which [extractForms] and [generateFieldValues] both contain. *)
Definition parseReply (text : string) : outcome json :=
  let jsonMatch :=
    match Regex.json_fence text with
    | Some group1 => Some group1
    | None => Regex.plain_fence text
    end in
  match jsonMatch with
  | Some group1 => JSON_parse group1
  | None => JSON_parse text
  end.

Definition parsedReply (result : ModelReply) (parsedData : json) : ParsedReply :=
  {| parsedData := parsedData;
     call_performance := {| perf_timeTaken := reply_timeTaken result;
                            perf_timestamp := reply_timestamp result |};
     call_usage := reply_usage result |}.

Local Open Scope outcome_scope.

(** [extractForms(htmlContent)].  The prompt built from [htmlContent] only
    travels to the endpoint, whose answer is [call]. *)
Definition extractForms (call : ApiCall) : outcome ParsedReply :=
  try_catch
    (result <- callGeminiAPI call ;;
     parsedData <- parseReply (reply_text result) ;;
     Returns (parsedReply result parsedData))
    (fun error => Throws (Error ("Failed to extract forms: " ++ message error))).

Definition null_formId : exn :=
  TypeError "Cannot read properties of null (reading 'formId')".

(** [generateFieldValues(formData)].  Reading [formData.formId] for the log
    line, before the [try], throws when [formData] is [null]. *)
Definition generateFieldValues (formData : json) (call : ApiCall) : outcome ParsedReply :=
  match formData with
  | JNull => Throws null_formId
  | _ =>
      try_catch
        (result <- callGeminiAPI call ;;
         parsedData <- parseReply (reply_text result) ;;
         Returns (parsedReply result parsedData))
        (fun error => Throws (Error ("Failed to generate field values: " ++ message error)))
  end.

(** *** analyzeFormsComplete *)

(** What one run of [analyzeFormsComplete] observes: the call made for the
    extraction, the call made for the form at each index, the readings of
    [Date.now()] in program order and the final [new Date().toISOString()]. *)
Record AnalysisRun : Type := {
  extractionCall : ApiCall;
  valueCall : nat -> ApiCall;
  overallStartTime : float;
  extractionStartTime : float;
  extractionEndTime : float;
  valueGenerationStartTime : float;
  valueGenerationEndTime : float;
  overallEndTime : float;
  finishedAt : string
}.

(** [formsData.forms], of which [.length] and [.map] are taken. *)
Definition formsOf (formsData : ParsedReply) : outcome (list json) :=
  match get "forms" (parsedData formsData) with
  | Some (JArr items) => Returns items
  | None => Throws (TypeError "Cannot read properties of undefined (reading 'length')")
  | Some JNull => Throws (TypeError "Cannot read properties of null (reading 'length')")
  | Some _ => Throws (TypeError "formsData.forms.map is not a function")
  end.

(** The callback of [formsData.forms.map].  Its [catch] block reads
    [form.formId] for the log line, which throws for a [null] form. *)
Definition withValues (form : json) (call : ApiCall) : outcome FormWithValues :=
  match generateFieldValues form call with
  | Returns values =>
      Returns {|
        form := form;
        suggestedValues := get "values" (parsedData values);
        validationStatus := get "metadata" (parsedData values);
        valueGenerationPerformance := Some {|
          gen_timeTaken := perf_timeTaken (call_performance values);
          gen_timestamp := perf_timestamp (call_performance values);
          gen_usage := call_usage values
        |}
      |}
  | Throws error =>
      match form with
      | JNull => Throws null_formId
      | _ =>
          Returns {|
            form := form;
            suggestedValues := Some JNull;
            validationStatus := Some (JObj [("error", JStr (message error))]);
            valueGenerationPerformance := None
          |}
      end
  | Unmodelled => Unmodelled
  end.

(** [Promise.all(forms.map(callback))] for the forms from [index] on: the
    results in the order of the forms, or the rejection of a callback. *)
Fixpoint allFrom (index : nat) (calls : nat -> ApiCall) (forms : list json)
    : outcome (list FormWithValues) :=
  match forms with
  | [] => Returns []
  | form :: rest =>
      entry <- withValues form (calls index) ;;
      entries <- allFrom (S index) calls rest ;;
      Returns (entry :: entries)
  end.

(** Truthiness of a decoded value. *)
Definition truthy (j : json) : bool :=
  match j with
  | JNull => false
  | JBool b => b
  | JNum x => Num.truthy x
  | JStr s => negb (String.eqb s "")
  | JArr _ | JObj _ => true
  end.

(** [form.valueGenerationPerformance?.usage] for an element on which the
    analyzer did not set the key: the key is then looked up in the
    descriptor the model supplied. *)
Definition descriptorUsage (descriptor : json) : option json :=
  match get "valueGenerationPerformance" descriptor with
  | None | Some JNull => None
  | Some p => get "usage" p
  end.

(** A total of the reduction: a number, or a text once [+] has concatenated
    strings.  The characters of such a text are not modelled. *)
Inductive Total : Type :=
| Number (x : float)
| Text.

(** The accumulator [acc] of the reduction. *)
Record Totals : Type := {
  acc_inputTokens : Total;
  acc_outputTokens : Total;
  acc_totalTokens : Total;
  acc_inputCost : Total;
  acc_outputCost : Total;
  acc_totalCost : Total
}.

(** What [usage.f || 0] brings to [+]: a number to add, or a value that makes
    [+] concatenate (a string, or an array or object, which [+] converts to
    a string). *)
Inductive Operand : Type :=
| Adds (x : float)
| Concatenates.

(** A decoded value has a string conversion.  An object has
    [Object.prototype.toString] unless a key [toString] of its own hides it
    (no decoded value is callable); an array joins the conversions of its
    elements. *)
Fixpoint convertible (j : json) : bool :=
  match j with
  | JObj members =>
      match assoc "toString" members with
      | Some _ => false
      | None => true
      end
  | JArr items => forallb convertible items
  | _ => true
  end.

Definition not_convertible : exn :=
  TypeError "Cannot convert object to primitive value".

(** [usage.f || 0] for a field that the model supplied, [None] being
    [undefined]: a falsy value gives [0]; [true] adds as [1]. *)
Definition operand (v : option json) : outcome Operand :=
  match v with
  | None | Some JNull => Returns (Adds 0)
  | Some (JBool b) => Returns (Adds (if b then 1 else 0))
  | Some (JNum x) => Returns (Adds (Num.or_default x 0))
  | Some (JStr s) => Returns (if String.eqb s "" then Adds 0 else Concatenates)
  | Some (JArr _ as w) | Some (JObj _ as w) =>
      if convertible w then Returns Concatenates else Throws not_convertible
  end.

(** [usage.f || 0] for a field of the usage of a model call. *)
Definition counted_field (x : float) : Operand := Adds (Num.or_default x 0).

(** [acc.f + w] *)
Definition plus (t : Total) (w : Operand) : Total :=
  match t, w with
  | Number a, Adds x => Number (a + x)
  | _, _ => Text
  end.

(** The six statements [acc.f += ...]. *)
Definition update (acc : Totals) (a b c d e f : Operand) : Totals :=
  {| acc_inputTokens := plus (acc_inputTokens acc) a;
     acc_outputTokens := plus (acc_outputTokens acc) b;
     acc_totalTokens := plus (acc_totalTokens acc) c;
     acc_inputCost := plus (acc_inputCost acc) d;
     acc_outputCost := plus (acc_outputCost acc) e;
     acc_totalCost := plus (acc_totalCost acc) f |}.

(** The callback of [formsWithValues.reduce].  On an element whose value
    generation returned, the usage is the one of its model call.  On an
    element whose value generation failed the analyzer set no
    [valueGenerationPerformance]; whatever usage the descriptor itself
    carries is then added, field by field, as JavaScript adds decoded
    values. *)
Definition accumulate (acc : Totals) (entry : FormWithValues) : outcome Totals :=
  match valueGenerationPerformance entry with
  | Some p =>
      let u := gen_usage p in
      Returns (update acc
                 (counted_field (inputTokens u)) (counted_field (outputTokens u))
                 (counted_field (totalTokens u)) (counted_field (inputCost u))
                 (counted_field (outputCost u)) (counted_field (totalCost u)))
  | None =>
      match descriptorUsage (form entry) with
      | Some u =>
          if truthy u then
            a <- operand (get "inputTokens" u) ;;
            b <- operand (get "outputTokens" u) ;;
            c <- operand (get "totalTokens" u) ;;
            d <- operand (get "inputCost" u) ;;
            e <- operand (get "outputCost" u) ;;
            f <- operand (get "totalCost" u) ;;
            Returns (update acc a b c d e f)
          else Returns acc
      | None => Returns acc
      end
  end.

Fixpoint reduce (entries : list FormWithValues) (acc : Totals) : outcome Totals :=
  match entries with
  | [] => Returns acc
  | entry :: rest => acc' <- accumulate acc entry ;; reduce rest acc'
  end.

(** [formsData.usage?.f || 0] for the six fields. *)
Definition initialUsage (u : Usage) : Usage :=
  {| inputTokens := Num.or_default (inputTokens u) 0;
     outputTokens := Num.or_default (outputTokens u) 0;
     totalTokens := Num.or_default (totalTokens u) 0;
     inputCost := Num.or_default (inputCost u) 0;
     outputCost := Num.or_default (outputCost u) 0;
     totalCost := Num.or_default (totalCost u) 0 |}.

(** An accumulator of six numbers; the initial value of the reduction is
    one. *)
Definition numbers (u : Usage) : Totals :=
  {| acc_inputTokens := Number (inputTokens u);
     acc_outputTokens := Number (outputTokens u);
     acc_totalTokens := Number (totalTokens u);
     acc_inputCost := Number (inputCost u);
     acc_outputCost := Number (outputCost u);
     acc_totalCost := Number (totalCost u) |}.

Definition not_a_function (cost : string) : exn :=
  TypeError ("totalUsage." ++ cost ++ ".toFixed is not a function").

(** [parseFloat(totalUsage.cost.toFixed(6))]: a text has no [toFixed]. *)
Definition fixed (cost : string) (t : Total) : outcome float :=
  match t with
  | Number x => Returns (Num.toFixed6 x)
  | Text => Throws (not_a_function cost)
  end.

(** [{ ...totalUsage, inputCost: parseFloat(totalUsage.inputCost.toFixed(6)),
    outputCost: ..., totalCost: ... }].  When the three costs are numbers and
    a token total is a text, the call returns that text in [totalUsage]; its
    characters depend on how the engine prints numbers, which is not
    modelled. *)
Definition roundedUsage (t : Totals) : outcome Usage :=
  inputCost' <- fixed "inputCost" (acc_inputCost t) ;;
  outputCost' <- fixed "outputCost" (acc_outputCost t) ;;
  totalCost' <- fixed "totalCost" (acc_totalCost t) ;;
  match acc_inputTokens t, acc_outputTokens t, acc_totalTokens t with
  | Number i, Number o, Number n =>
      Returns {| inputTokens := i; outputTokens := o; totalTokens := n;
                 inputCost := inputCost'; outputCost := outputCost';
                 totalCost := totalCost' |}
  | _, _, _ => Unmodelled
  end.

Definition analyzeFormsComplete (run : AnalysisRun) : outcome CompleteAnalysis :=
  formsData <- extractForms (extractionCall run) ;;
  let extractionTime := extractionEndTime run - extractionStartTime run in
  descriptors <- formsOf formsData ;;
  formsWithValues <- allFrom 0 (valueCall run) descriptors ;;
  let valueGenerationTime := valueGenerationEndTime run - valueGenerationStartTime run in
  let totalTime := overallEndTime run - overallStartTime run in
  totalUsage <- reduce formsWithValues (numbers (initialUsage (call_usage formsData))) ;;
  rounded <- roundedUsage totalUsage ;;
  Returns {|
    extracted := parsedData formsData;
    usage := call_usage formsData;
    forms := formsWithValues;
    timestamp := finishedAt run;
    performance := {|
      extractionTime := extractionTime;
      valueGenerationTime := valueGenerationTime;
      totalTime := totalTime;
      averageTimePerForm :=
        Num.Math_round (valueGenerationTime / Num.of_nat (List.length descriptors))
    |};
    totalUsage := rounded
  |}.

End GeminiService.

(** ** The platform's URL class *)

(** The two uses the fetcher makes of [URL].  [URL_origin u] is
    [new URL(u).origin] and [URL_href src base] is [new URL(src, base).href];
    [None] stands for the [TypeError] the constructor throws on an input that
    is not a valid URL.  The services are stated over any implementation. *)
Class UrlApi : Type := {
  URL_origin : string -> option string;
  URL_href : string -> string -> option string
}.

(** ** HtmlFetcherService *)

Module HtmlFetcherService.

(** What a request does: the body of a successful response, or the
    exception [fetchUrl] throws (a failed request, or
    [Error "HTTP <status>: <statusText>"] for a status outside 2xx). *)
Inductive Fetched : Type :=
| Body (content : string)
| Failed (e : exn).

(** [{ src, content, success }], with [error] when the fetch failed. *)
Record IframeContent : Type := {
  src : string;
  content : string;
  success : bool;
  error : option string
}.

Record Stats : Type := {
  totalIframes : Z;
  successfulIframes : Z;
  failedIframes : Z
}.

(** [{ mainHtml, iframes, combinedHtml }], with [stats] on the path that
    sets it. *)
Record FetchResult : Type := {
  mainHtml : string;
  iframes : list IframeContent;
  combinedHtml : string;
  stats : option Stats
}.

Section WithUrl.

Context {url : UrlApi}.

(** The body of the [while] loop of [extractIframeSrcs] for one match:
    [Some s] pushes [s], [None] is [continue]. *)
Definition resolveSrc (baseUrl : string) (src : string) : option string :=
  if Str.startsWith src "data:" || Str.startsWith src "javascript:"
     || String.eqb src "about:blank"
  then None
  else if negb (Str.startsWith src "http://") && negb (Str.startsWith src "https://")
  then
    match URL_origin baseUrl with
    | Some origin => URL_href src origin
    | None => None
    end
  else Some src.

Fixpoint pushAll (baseUrl : string) (matches : list string) : list string :=
  match matches with
  | [] => []
  | m :: rest =>
      match resolveSrc baseUrl m with
      | Some s => s :: pushAll baseUrl rest
      | None => pushAll baseUrl rest
      end
  end.

Definition extractIframeSrcs (html baseUrl : string) : list string :=
  pushAll baseUrl (Regex.exec_all 0 html).

(** The separator written before an iframe's content. *)
Definition marker (index : nat) (src : string) : string :=
  Str.nl ++ Str.nl ++ "<!-- ========== IFRAME " ++ Str.of_nat (index + 1)
    ++ " CONTENT: " ++ src ++ " ========== -->" ++ Str.nl ++ Str.nl.

(** [iframeContents.forEach((iframe, index) => ...)] from [index] on. *)
Fixpoint appendFrom (index : nat) (combined : string) (iframeContents : list IframeContent)
    : string :=
  match iframeContents with
  | [] => combined
  | iframe :: rest =>
      let combined' :=
        if success iframe && negb (String.eqb (content iframe) "")
        then (combined ++ marker index (src iframe)) ++ content iframe
        else combined in
      appendFrom (S index) combined' rest
  end.

Definition combineHtml (mainHtml : string) (iframeContents : list IframeContent) : string :=
  appendFrom 0 mainHtml iframeContents.

(** The callback of [iframeSrcs.map]: one fetch, its failure caught. *)
Definition fetchIframe (answer : Fetched) (src : string) : IframeContent :=
  match answer with
  | Body content => {| src := src; content := content; success := true; error := None |}
  | Failed e => {| src := src; content := ""; success := false; error := Some (message e) |}
  end.

(** [Promise.all(iframeSrcs.map(callback))] from [index] on; [net index src]
    answers the request for the iframe at [index]. *)
Fixpoint fetchAllFrom (index : nat) (net : nat -> string -> Fetched) (srcs : list string)
    : list IframeContent :=
  match srcs with
  | [] => []
  | s :: rest => fetchIframe (net index s) s :: fetchAllFrom (S index) net rest
  end.

Definition count (iframeContents : list IframeContent) : Z :=
  Z.of_nat (List.length (List.filter success iframeContents)).

(** [fetchWithIframes(url)]: [main] answers the request for the page,
    [net] those for its iframes. *)
Definition fetchWithIframes (pageUrl : string) (main : Fetched)
    (net : nat -> string -> Fetched) : outcome FetchResult :=
  match main with
  | Failed e => Throws e
  | Body mainHtml =>
      let iframeSrcs := extractIframeSrcs mainHtml pageUrl in
      if (List.length iframeSrcs =? 0)%nat then
        Returns {| mainHtml := mainHtml; iframes := [];
                   combinedHtml := mainHtml; stats := None |}
      else
        let iframeContents := fetchAllFrom 0 net iframeSrcs in
        let combinedHtml := combineHtml mainHtml iframeContents in
        let successfulIframes := count iframeContents in
        Returns {| mainHtml := mainHtml;
                   iframes := iframeContents;
                   combinedHtml := combinedHtml;
                   stats := Some {|
                     totalIframes := Z.of_nat (List.length iframeSrcs);
                     successfulIframes := successfulIframes;
                     failedIframes := Z.of_nat (List.length iframeSrcs) - successfulIframes
                   |} |}
  end.

End WithUrl.

(** [getIframeContent(iframeContents, index)] for an integer [index];
    [None] is [null]. *)
Definition getIframeContent (iframeContents : list IframeContent) (index : Z)
    : option IframeContent :=
  if (0 <=? index)%Z && (index <? Z.of_nat (List.length iframeContents))%Z
  then nth_error iframeContents (Z.to_nat index)
  else None.

End HtmlFetcherService.

(** ** A reference resolver for the examples *)

(** A fragment of the URL Standard, enough to run the services on concrete
    pages: absolute [http] and [https] URLs [scheme://host/path] whose host is
    made of dot-separated labels of lower-case letters and whose path holds
    only letters, digits, [-], [_] and [/]; and references to them that are
    empty, scheme-relative ([//host/path]), path-absolute or path-relative
    over the same characters.  On that fragment the Standard fails exactly
    when the host is missing.  Any other input is [Unsupported]. *)
Module RefUrl.

Inductive answer (A : Type) : Type :=
| Valid (a : A)
| Invalid
| Unsupported.

Arguments Valid {A} a.
Arguments Invalid {A}.
Arguments Unsupported {A}.

Record parts : Type := { scheme : string; host : string; path : string }.

Definition in_range (lo hi : nat) (c : ascii) : bool :=
  (lo <=? nat_of_ascii c)%nat && (nat_of_ascii c <=? hi)%nat.

Definition is_lower (c : ascii) : bool := in_range 97 122 c.

Definition path_char (c : ascii) : bool :=
  is_lower c || in_range 65 90 c || in_range 48 57 c
  || Ascii.eqb c "-" || Ascii.eqb c "_" || Ascii.eqb c "/".

Fixpoint all (p : ascii -> bool) (s : string) : bool :=
  match s with
  | EmptyString => true
  | String c r => p c && all p r
  end.

(** [s] split before its first [/]. *)
Fixpoint cut (s : string) : string * string :=
  match s with
  | EmptyString => (EmptyString, EmptyString)
  | String c r =>
      if Ascii.eqb c "/" then (EmptyString, s)
      else let '(a, b) := cut r in (String c a, b)
  end.

(** Labels of lower-case letters separated by single dots. *)
Fixpoint labels (after_letter : bool) (s : string) : bool :=
  match s with
  | EmptyString => after_letter
  | String c r =>
      if is_lower c then labels true r
      else Ascii.eqb c "." && after_letter && labels false r
  end.

(** What follows [scheme://]: a host and a path. *)
Definition authority (scheme : string) (s : string) : answer parts :=
  let '(h, p) := cut s in
  match h with
  | EmptyString =>
      match p with
      | EmptyString => Invalid
      | String _ _ => Unsupported
      end
  | String _ _ =>
      if labels false h && all path_char p
      then Valid {| scheme := scheme; host := h;
                    path := match p with EmptyString => "/" | _ => p end |}
      else Unsupported
  end.

Definition absolute (u : string) : answer parts :=
  if String.prefix "https://" u then authority "https" (Str.drop 8 u)
  else if String.prefix "http://" u then authority "http" (Str.drop 7 u)
  else Unsupported.

Definition serialize (p : parts) : string :=
  scheme p ++ "://" ++ host p ++ path p.

(** The path up to and including its last [/]. *)
Fixpoint directory (p : string) : string :=
  match p with
  | EmptyString => EmptyString
  | String c r =>
      match directory r with
      | EmptyString => if Ascii.eqb c "/" then String c EmptyString else EmptyString
      | d => String c d
      end
  end.

Definition origin (u : string) : answer string :=
  match absolute u with
  | Valid p => Valid (scheme p ++ "://" ++ host p)
  | Invalid => Invalid
  | Unsupported => Unsupported
  end.

Definition relative (src : string) (b : parts) : answer string :=
  match src with
  | EmptyString => Valid (serialize b)
  | String "/" (String "/" r) =>
      match authority (scheme b) r with
      | Valid p => Valid (serialize p)
      | Invalid => Invalid
      | Unsupported => Unsupported
      end
  | String "/" _ =>
      if all path_char src then Valid (scheme b ++ "://" ++ host b ++ src) else Unsupported
  | String _ _ =>
      if all path_char src
      then Valid (scheme b ++ "://" ++ host b ++ directory (path b) ++ src)
      else Unsupported
  end.

Definition href (src base : string) : answer string :=
  match absolute base with
  | Valid b =>
      match absolute src with
      | Valid p => Valid (serialize p)
      | Invalid => Invalid
      | Unsupported =>
          if String.prefix "https://" src || String.prefix "http://" src
          then Unsupported
          else relative src b
      end
  | Invalid => Invalid
  | Unsupported => Unsupported
  end.

Definition to_option (a : answer string) : option string :=
  match a with
  | Valid s => Some s
  | _ => None
  end.

(** The resolver as an implementation of the interface; an input outside
    the fragment is answered like an invalid one. *)
Definition api : UrlApi :=
  {| URL_origin := fun u => to_option (origin u);
     URL_href := fun src base => to_option (href src base) |}.

End RefUrl.

(** ** The scanner routes *)

(** The handlers of [routes/scanner.routes.js] that call the two services.
    [req.body] is the decoded JSON body (an object, [{}] when there is none);
    a handler answers with [res.status(code).json(payload)], the code being
    200 when [status] is not called. *)
Module ScannerRoutes.

Import Json GeminiService HtmlFetcherService.

(** [{ success: true, data, timestamp }] (the timestamp where the handler
    sets one) or [{ success: false, error }]. *)
Inductive Payload (A : Type) : Type :=
| Succeeded (data : A) (timestamp : option string)
| Refused (error : string).

Arguments Succeeded {A} data timestamp.
Arguments Refused {A} error.

Record Response (A : Type) : Type := {
  statusCode : nat;
  payload : Payload A
}.

Arguments statusCode {A} r.
Arguments payload {A} r.

(** The [success] key of the payload. *)
Definition succeeded {A : Type} (r : Response A) : bool :=
  match payload r with
  | Succeeded _ _ => true
  | Refused _ => false
  end.

(** [if (!value)] on a key of the body: [undefined] and the falsy values. *)
Definition missing (value : option json) : bool :=
  match value with
  | Some v => negb (truthy v)
  | None => true
  end.

(** [res.status(400).json({ success: false, error })] *)
Definition badRequest {A : Type} (error : string) : Response A :=
  {| statusCode := 400; payload := Refused error |}.

(** The [catch] block of a handler:
    [res.status(500).json({ success: false, error: error.message })]. *)
Definition serverError {A : Type} (error : exn) : Response A :=
  {| statusCode := 500; payload := Refused (message error) |}.

(** The [try] block of a handler around the awaited [work]. *)
Definition answering {A B : Type} (work : outcome A) (send : A -> Response B)
    : outcome (Response B) :=
  match work with
  | Returns result => Returns (send result)
  | Throws error => Returns (serverError error)
  | Unmodelled => Unmodelled
  end.




(** [{ htmlContent, length, url, iframeStats }] *)
Record FetchedPage : Type := {
  htmlContent : string;
  contentLength : Z;
  requestedUrl : string;
  iframeStats : Stats
}.

(** [{ ...result, sourceUrl, htmlLength, iframeStats }] *)
Record AnalyzedPage : Type := {
  analysis : CompleteAnalysis;
  sourceUrl : string;
  htmlLength : Z;
  pageStats : Stats
}.

Definition undefined_stats : exn :=
  TypeError "Cannot read properties of undefined (reading 'successfulIframes')".

(** [result.stats.successfulIframes], read for the log line after the fetch. *)
Definition statsOf (result : FetchResult) : outcome Stats :=
  match stats result with
  | Some st => Returns st
  | None => Throws undefined_stats
  end.

(** The text that [new URL] and [fetch] make of a decoded value that is not
    a string holds no colon.  That text is the decimal form of a number,
    [true] or [false], nothing for [null], [[object Object]] for an object
    (when the object has a conversion at all), and for an array the texts of
    its elements joined by commas: a colon can only come from a string in an
    array.  A text without a colon names no scheme, so [new URL] throws on
    it, as it does when the conversion itself throws. *)
Fixpoint colonFree (v : json) : bool :=
  match v with
  | JStr s => negb (Str.includes s ":")
  | JArr items => forallb colonFree items
  | _ => true
  end.

(** A truthy [url] that is not a string and on which [new URL] throws for
    want of a colon. *)
Definition noAddress (v : json) : bool :=
  match v with
  | JStr _ => false
  | _ => truthy v && colonFree v
  end.

Section WithUrl.

Context {url : UrlApi}.

(** The checks of [url] before the [try] work of the two URL routes: the key
    must be present and truthy, and [new URL(url)] must not throw.  [inl] is
    the response that ends the handler.  A truthy [url] that is not a string
    is converted to its text by [new URL]; when that text holds no colon (see
    [colonFree]) the constructor throws.  An array that holds a string with a
    colon may convert to a valid address: the handler then goes on with a
    [url] that is not a string, which is not modelled. *)
Definition checkedUrl {A : Type} (body : json) : outcome (Response A + string) :=
  match get "url" body with
  | None => Returns (inl (badRequest "URL is required"))
  | Some (JStr u) =>
      if String.eqb u "" then Returns (inl (badRequest "URL is required"))
      else
        match URL_origin u with
        | Some _ => Returns (inr u)
        | None => Returns (inl (badRequest "Invalid URL format"))
        end
  | Some v =>
      if truthy v then
        if colonFree v then Returns (inl (badRequest "Invalid URL format"))
        else Unmodelled
      else Returns (inl (badRequest "URL is required"))
  end.

(** [const result = await htmlFetcherService.fetchWithIframes(url)] and the
    log line after it, which reads [result.stats.successfulIframes]; [main]
    and [net] answer the requests of [fetchWithIframes]. *)
Definition fetchAndLog (u : string) (main : Fetched) (net : nat -> string -> Fetched)
    : outcome (FetchResult * Stats) :=
  bind (fetchWithIframes u main net) (fun result =>
  bind (statsOf result) (fun st => Returns (result, st))).

(** [POST /fetch-url] *)
Definition postFetchUrl (body : json) (main : Fetched) (net : nat -> string -> Fetched)
    : outcome (Response FetchedPage) :=
  match checkedUrl body with
  | Returns (inl refusal) => Returns refusal
  | Returns (inr u) =>
      answering (fetchAndLog u main net)
        (fun '(result, st) =>
           {| statusCode := 200;
              payload := Succeeded
                {| htmlContent := combinedHtml result;
                   contentLength := Str.length16 (combinedHtml result);
                   requestedUrl := u;
                   iframeStats := st |}
                None |})
  | Throws e => Throws e
  | Unmodelled => Unmodelled
  end.

(** [POST /analyze-url]: the fetch, then the analysis of the combined text,
    whose model replies are those of [run]. *)
Definition postAnalyzeUrl (body : json) (main : Fetched) (net : nat -> string -> Fetched)
    (run : AnalysisRun) (now : string) : outcome (Response AnalyzedPage) :=
  match checkedUrl body with
  | Returns (inl refusal) => Returns refusal
  | Returns (inr u) =>
      answering
        (bind (fetchAndLog u main net) (fun '(fetchResult, st) =>
         bind (analyzeFormsComplete run) (fun result =>
         Returns (fetchResult, st, result))))
        (fun '(fetchResult, st, result) =>
           {| statusCode := 200;
              payload := Succeeded
                {| analysis := result;
                   sourceUrl := u;
                   htmlLength := Str.length16 (combinedHtml fetchResult);
                   pageStats := st |}
                (Some now) |})
  | Throws e => Throws e
  | Unmodelled => Unmodelled
  end.

End WithUrl.

End ScannerRoutes.

(** ** The benchmark's fetch step *)

(** [fetchWebsite] of [scripts/benchmark.js], the client of
    [POST /fetch-url]. *)
Module Benchmark.

Import HtmlFetcherService ScannerRoutes.
Local Open Scope float_scope.

(** What the request to the route comes to: the answer of the handler, its
    payload read back by [response.json()], or the exception of a request
    that fails. *)
Inductive Exchange : Type :=
| Replied (r : Response FetchedPage)
| Broken (e : exn).

(** [{ success: true, htmlContent, htmlLength, fetchTime }] or
    [{ success: false, error, fetchTime }]; a key that is not set is
    [None]. *)
Record WebsiteFetch : Type := {
  fetch_success : bool;
  fetch_htmlContent : option string;
  fetch_htmlLength : option Z;
  fetch_error : option string;
  fetchTime : float
}.

(** [response.ok] *)
Definition ok (status : nat) : bool :=
  (200 <=? status)%nat && (status <=? 299)%nat.

(** The [catch] block. *)
Definition fetchFailed (error : exn) (fetchTime : float) : WebsiteFetch :=
  {| fetch_success := false;
     fetch_htmlContent := None;
     fetch_htmlLength := None;
     fetch_error := Some (message error);
     fetchTime := fetchTime |}.

(** [fetchWebsite(url)]; [startTime] and [endTime] are the readings
    of [Date.now()] that [fetchTime] is computed from.  An answer that is not [ok] is thrown as
    [Error(errorData.error || `HTTP ${response.status}`)]; an [ok] answer
    without [data] makes the log line, which reads [data.data.length],
    throw. *)
Definition fetchWebsite (exchange : Exchange) (startTime endTime : float) : WebsiteFetch :=
  let fetchTime := endTime - startTime in
  match exchange with
  | Broken error => fetchFailed error fetchTime
  | Replied response =>
      if ok (statusCode response) then
        match payload response with
        | Succeeded data _ =>
            {| fetch_success := true;
               fetch_htmlContent := Some (htmlContent data);
               fetch_htmlLength := Some (contentLength data);
               fetch_error := None;
               fetchTime := fetchTime |}
        | Refused _ =>
            fetchFailed (TypeError "Cannot read properties of undefined (reading 'length')")
              fetchTime
        end
      else
        let status := "HTTP " ++ Str.of_nat (statusCode response) in
        match payload response with
        | Refused error =>
            fetchFailed (Error (if String.eqb error "" then status else error)) fetchTime
        | Succeeded _ _ => fetchFailed (Error status) fetchTime
        end
  end.

End Benchmark.

(** ** The specification's wording, for comparison with the code *)

Module Spec.

Import Json GeminiService HtmlFetcherService.

(** *** Tolerant JSON extraction *)

(** What each strategy of the tolerant extractor extracts, in the order the
    specification lists them: a fence labeled json, any fence, the entire
    text. *)
Definition candidates (text : string) : list string :=
  match Regex.json_fence text with Some c => [c] | None => [] end
  ++ match Regex.plain_fence text with Some c => [c] | None => [] end
  ++ [text].

(** The first candidate that is syntactically valid JSON wins. *)
Fixpoint firstValid (cs : list string) : option json :=
  match cs with
  | [] => None
  | c :: rest =>
      match JSON_parse c with
      | Returns v => Some v
      | _ => firstValid rest
      end
  end.


(** The content of the first strategy that matches, valid or not. *)
Definition selected (text : string) : string :=
  List.hd text (candidates text).

(** *** Two-phase analysis *)

(** A descriptor on which the analysis stays inside the modelled fragment and
    can record a failure: it is not [null] and does not itself carry a
    truthy [valueGenerationPerformance.usage].  Every object that follows
    the schema of the extraction prompt is one. *)
Definition plainDescriptor (d : json) : bool :=
  match d with
  | JNull => false
  | _ =>
      match descriptorUsage d with
      | Some u => negb (GeminiService.truthy u)
      | None => true
      end
  end.

(** What the analysis records for the descriptor [d] whose value generation
    ended as [generated]: the suggested values and the validation status of
    the reply, or [null] and the error message. *)
Definition recorded (d : json) (generated : outcome ParsedReply)
    (entry : FormWithValues) : Prop :=
  form entry = d /\
  match generated with
  | Returns values =>
      suggestedValues entry = get "values" (parsedData values) /\
      validationStatus entry = get "metadata" (parsedData values) /\
      exists p, valueGenerationPerformance entry = Some p /\
                gen_usage p = call_usage values
  | Throws error =>
      suggestedValues entry = Some JNull /\
      validationStatus entry = Some (JObj [("error", JStr (message error))]) /\
      valueGenerationPerformance entry = None
  | Unmodelled => False
  end.

(** Two usage records summed field by field, each term read with [|| 0]. *)
Definition addUsage (acc u : Usage) : Usage :=
  {| inputTokens := inputTokens acc + Num.or_default (inputTokens u) 0;
     outputTokens := outputTokens acc + Num.or_default (outputTokens u) 0;
     totalTokens := totalTokens acc + Num.or_default (totalTokens u) 0;
     inputCost := inputCost acc + Num.or_default (inputCost u) 0;
     outputCost := outputCost acc + Num.or_default (outputCost u) 0;
     totalCost := totalCost acc + Num.or_default (totalCost u) 0 |}%float.

(** The three costs of a usage record written with six decimals. *)
Definition roundCosts (u : Usage) : Usage :=
  {| inputTokens := inputTokens u;
     outputTokens := outputTokens u;
     totalTokens := totalTokens u;
     inputCost := Num.toFixed6 (inputCost u);
     outputCost := Num.toFixed6 (outputCost u);
     totalCost := Num.toFixed6 (totalCost u) |}.

(** The number a field of a carried usage adds, when it adds one. *)
Definition added_number (v : option json) : option float :=
  match operand v with
  | Returns (Adds x) => Some x
  | _ => None
  end.

(** The usage that a descriptor carries on its own, under
    [valueGenerationPerformance.usage], when that is truthy and each of its
    six fields adds a number: a number, [true] (counted as 1), or a missing
    or falsy value (counted as 0).  The schema of the extraction prompt has
    no such key; a descriptor carries one only if the model put it there. *)
Definition carried (d : json) : option Usage :=
  match descriptorUsage d with
  | Some u =>
      if GeminiService.truthy u then
        match added_number (get "inputTokens" u), added_number (get "outputTokens" u),
              added_number (get "totalTokens" u), added_number (get "inputCost" u),
              added_number (get "outputCost" u), added_number (get "totalCost" u) with
        | Some a, Some b, Some c, Some d', Some e, Some f =>
            Some {| inputTokens := a; outputTokens := b; totalTokens := c;
                    inputCost := d'; outputCost := e; totalCost := f |}
        | _, _, _, _, _, _ => None
        end
      else None
  | None => None
  end.

(** A descriptor whose entry the reduction can add up with numbers alone: it
    is not [null], and the usage it carries, if any, adds numbers. *)
Definition summable (d : json) : bool :=
  match d with
  | JNull => false
  | _ =>
      match descriptorUsage d with
      | Some u =>
          negb (GeminiService.truthy u)
          || match carried d with Some _ => true | None => false end
      | None => true
      end
  end.


(** The usage of every model call that reported usage, whether or not the
    value generation then failed: what the specification counts. *)
Fixpoint reported (index : nat) (calls : nat -> ApiCall) (descriptors : list json)
    : list Usage :=
  match descriptors with
  | [] => []
  | d :: rest =>
      match callGeminiAPI (calls index) with
      | Returns reply => reply_usage reply :: reported (S index) calls rest
      | _ => reported (S index) calls rest
      end
  end.





(** The usage of the extraction call and [terms] summed field by field, from
    left to right, the costs then rounded to six decimals. *)
Definition total (extraction : Usage) (terms : list Usage) : Usage :=
  roundCosts (fold_left addUsage terms (initialUsage extraction)).

(** *** Iframe discovery and aggregation *)

(** A source the discoverer excludes: an inline data payload, a script
    pseudo-protocol, or the empty-page sentinel. *)
Definition excluded (src : string) : bool :=
  Str.startsWith src "data:" || Str.startsWith src "javascript:"
  || String.eqb src "about:blank".

Definition absoluteHttp (src : string) : bool :=
  Str.startsWith src "http://" || Str.startsWith src "https://".

Definition is_alpha (c : ascii) : bool :=
  let n := nat_of_ascii c in
  ((65 <=? n) && (n <=? 90) || (97 <=? n) && (n <=? 122))%nat.

Definition scheme_char (c : ascii) : bool :=
  let n := nat_of_ascii c in
  is_alpha c || (48 <=? n)%nat && (n <=? 57)%nat
  || Ascii.eqb c "+" || Ascii.eqb c "-" || Ascii.eqb c ".".

Fixpoint scheme_tail (s : string) : bool :=
  match s with
  | EmptyString => false
  | String c r => Ascii.eqb c ":" || scheme_char c && scheme_tail r
  end.

(** [s] starts with a scheme: a letter, then letters, digits, [+], [-] or
    [.], then a colon. *)
Definition hasScheme (s : string) : bool :=
  match s with
  | EmptyString => false
  | String c r => is_alpha c && scheme_tail r
  end.

(** Resolution against the origin of the base location. *)
Definition againstOrigin {url : UrlApi} (baseUrl src : string) : option string :=
  match URL_origin baseUrl with
  | Some origin => URL_href src origin
  | None => None
  end.

(** An iframe whose body the aggregator appends: fetched, and not empty. *)
Definition contributes (iframe : IframeContent) : bool :=
  success iframe && negb (String.eqb (content iframe) "").

(** What follows the main document in the combined text, for the iframes
    from [index] on: marker and body of every iframe that [keep] selects.
    The specification selects by [success]. *)
Fixpoint pieces (keep : IframeContent -> bool) (index : nat)
    (iframeContents : list IframeContent) : string :=
  match iframeContents with
  | [] => ""
  | iframe :: rest =>
      (if keep iframe then marker index (src iframe) ++ content iframe else "")
      ++ pieces keep (S index) rest
  end.

End Spec.

(** ** Concrete replies, runs and pages *)

Module Examples.

Import Json GeminiService HtmlFetcherService.
Local Open Scope float_scope.

(** *** Model replies *)

Definition in_json_fence (body : string) : string :=
  Regex.fence ++ "json" ++ Str.nl ++ body ++ Str.nl ++ Regex.fence.

Definition fenced_json : string :=
  "prefix " ++ in_json_fence (Str.dq "{'a':1}") ++ " suffix".

Definition bare_json : string := Str.dq "{'a':1}".




Definition metadata (i o : float) : option UsageMetadata :=
  Some {| promptTokenCount := Some i; candidatesTokenCount := Some o;
          totalTokenCount := Some (i + o) |}.

Definition answer (text : string) (um : option UsageMetadata) : ApiCall :=
  {| response := Answered text um;
     startTime := 1700000000000; endTime := 1700000001500;
     isoTime := "2024-12-01T00:00:01.500Z" |}.

Definition call_2000_1000 : ApiCall := answer "{}" (metadata 2000 1000).

Definition endpoint_down : ApiCall :=
  {| response := Rejected (Error "API Error: 500 - {}");
     startTime := 1700000000000; endTime := 1700000000200; isoTime := "" |}.

(** *** Runs of the analysis *)

Definition three_descriptors : list json :=
  [JObj [("formId", JStr "f1")]; JObj [("formId", JStr "f2")]; JObj [("formId", JStr "f3")]].

(** An extraction that finds three forms. *)
Definition extraction_of_three : ApiCall :=
  answer (in_json_fence
            (Str.dq ("{'summary':{'totalFunctionalForms':3},"
                     ++ "'forms':[{'formId':'f1'},{'formId':'f2'},{'formId':'f3'}]}")))
         (metadata 100 50).

Definition values_reply : string :=
  Str.dq "{'values':{'name':'Ann'},'metadata':{'allValidationsSatisfied':true}}".

(** A run whose value generation phase lasts from [t3] to [t4]. *)
Definition clocked (extraction : ApiCall) (calls : nat -> ApiCall) (t3 t4 : float)
    : AnalysisRun :=
  {| extractionCall := extraction;
     valueCall := calls;
     overallStartTime := 1700000000000;
     extractionStartTime := 1700000000000;
     extractionEndTime := 1700000001500;
     valueGenerationStartTime := t3;
     valueGenerationEndTime := t4;
     overallEndTime := t4;
     finishedAt := "2024-12-01T00:00:04.000Z" |}.

(** Three forms; the value generation of the second one fails. *)
Definition second_fails : AnalysisRun :=
  clocked extraction_of_three
    (fun i => match i with
              | 1%nat => endpoint_down
              | _ => answer values_reply (metadata 2000 1000)
              end)
    1700000001500 1700000004000.

(** One form; the model answers its value generation, reporting usage, with
    text that is not JSON. *)
Definition unparsable_values : AnalysisRun :=
  clocked (answer (Str.dq "{'forms':[{'formId':'f1'}]}") (metadata 100 50))
    (fun _ => answer "not json" (metadata 2000 1000))
    1700000001500 1700000004000.

(** One form whose descriptor carries the usage [usage] of its own, as a
    reply of the model can; its value generation fails. *)
Definition carrying (usage : string) : AnalysisRun :=
  clocked
    (answer (Str.dq ("{'forms':[{'formId':'f1','valueGenerationPerformance':{'usage':"
                     ++ usage ++ "}}]}"))
            (metadata 100 50))
    (fun _ => endpoint_down)
    1700000001500 1700000004000.

(** An extraction that finds no form. *)
Definition no_forms (t3 t4 : float) : AnalysisRun :=
  clocked (answer (Str.dq "{'forms':[]}") (metadata 100 50))
    (fun _ => endpoint_down) t3 t4.

(** *** Pages *)

Definition page_url : string := "https://example.com/a/b".

Definition plain_page : string :=
  "<html><body><form id='f'><input name='q'></form></body></html>".

(** Two frames on the same relative source around an absolute one. *)
Definition framed_page : string :=
  "<html><iframe src='/x'></iframe><iframe src='https://ads.example.org/banner'></iframe>"
  ++ "<iframe src='/x'></iframe></html>".

Definition second_missing (index : nat) (src : string) : Fetched :=
  match index with
  | 0%nat => Body "<form id='inner'></form>"
  | 1%nat => Failed (Error "HTTP 404: Not Found")
  | _ => Body "<p>again</p>"
  end.

Definition one_frame : string := "<iframe src='/x'></iframe>".

Definition bare_frame : string := "<iframe src='x'></iframe>".

Definition empty_body (index : nat) (src : string) : Fetched := Body "".

(** A frame whose source has no host to resolve to. *)
Definition hostless_frame : string := "<iframe src='//'></iframe>".

(** The frames of [framed_page] and three excluded ones. *)
Definition mixed_page : string :=
  framed_page ++ "<iframe src='javascript:void(0)'></iframe>"
  ++ "<iframe src='about:blank'></iframe><iframe src='data:text/html,hi'></iframe>".

Definition unreachable (index : nat) (src : string) : Fetched :=
  Failed (Error "HTTP 503: Service Unavailable").

End Examples.

(** ** Shapes of text, for stating what the expressions match *)

Module Layout.

(** [inner] stands in [s] between two quote characters. *)
Definition between_quotes (inner s : string) : Prop :=
  exists pre q1 q2 post,
    s = pre ++ String q1 (inner ++ String q2 post) /\
    Regex.is_quote q1 = true /\ Regex.is_quote q2 = true.

(** [s] holds a block that [open] starts, that a line break and a fence end
    and whose content is [inner]. *)
Definition fenced (open inner s : string) : Prop :=
  exists pre post, s = pre ++ open ++ inner ++ (Str.nl ++ Regex.fence) ++ post.

Definition not_quote (c : ascii) : bool := negb (Regex.is_quote c).

(** What a match of the iframe expression captures in [s]: a source that is
    not empty, holds no quote and stands between two quotes. *)
Definition captured (g s : string) : Prop :=
  g <> "" /\ Str.all not_quote g = true /\ between_quotes g s.

End Layout.

(** ** Requests to the routes *)

Module Requests.

Import Json.

Definition for_url (u : string) : json := JObj [("url", JStr u)].

(** A body whose [url] is any decoded value. *)
Definition with_url (v : json) : json := JObj [("url", v)].


Definition for_form (formData : json) : json := JObj [("formData", formData)].

Definition no_keys : json := JObj [].

Definition now : string := "2024-12-01T00:00:05.000Z".

End Requests.

(** * Properties *)

(** ** [JSON.parse] never runs out of fuel *)

Module JsonFacts.
Import Json.

Lemma skip_ws_length s : String.length (skip_ws s) <= String.length s.
Proof.
  induction s as [|c r IH]; simpl; [lia|].
  destruct (is_ws c); simpl; lia.
Qed.

Lemma next_length c s r : next c s = Some r -> String.length s = S (String.length r).
Proof.
  destruct s as [|c' s']; simpl; [discriminate|].
  destruct (Ascii.eqb c c'); [|discriminate].
  intros H; injection H as <-. reflexivity.
Qed.

Lemma prepend_rest p o b r : prepend p o = Some (b, r) -> exists b', o = Some (b', r).
Proof.
  destruct o as [[b' r']|]; simpl; [|discriminate].
  intros H; injection H as _ <-. eauto.
Qed.

Lemma string_body_length s : forall b r,
  string_body s = Some (b, r) -> String.length r < String.length s.
Proof.
  induction s as [s IH] using (well_founded_induction
    (Wf_nat.well_founded_ltof _ String.length)).
  unfold Wf_nat.ltof in IH.
  intros b r H. destruct s as [|c s1]; [discriminate|].
  simpl in H.
  destruct (Ascii.eqb c Str.dquote).
  { injection H as _ <-. simpl. lia. }
  destruct (Ascii.eqb c "\").
  2:{ destruct (nat_of_ascii c <? 32)%nat; [discriminate|].
      apply prepend_rest in H as [b' H]. apply IH in H; simpl in *; lia. }
  destruct s1 as [|e r1]; [discriminate|].
  destruct (Ascii.eqb e "u").
  2:{ destruct (simple_escape e); [|discriminate].
      apply prepend_rest in H as [b' H]. apply IH in H; simpl in *; lia. }
  destruct r1 as [|h1 [|h2 [|h3 [|h4 r2]]]]; try discriminate.
  destruct (hex4 h1 h2 h3 h4) as [u|]; [|discriminate].
  assert (Hr2 : forall b', string_body r2 = Some (b', r) ->
                 String.length r < String.length (String c (String e (String h1 (String h2 (String h3 (String h4 r2))))))).
  { intros b' Hb. apply IH in Hb; simpl in *; lia. }
  destruct r2 as [|x1 [|x2 [|l1 [|l2 [|l3 [|l4 r3]]]]]];
    try (apply prepend_rest in H as [b' H]; exact (Hr2 _ H)).
  destruct (hex4 l1 l2 l3 l4) as [l|];
    [|apply prepend_rest in H as [b' H]; exact (Hr2 _ H)].
  destruct (Ascii.eqb x1 "\" && Ascii.eqb x2 "u" && is_high u && is_low l);
    [|apply prepend_rest in H as [b' H]; exact (Hr2 _ H)].
  apply prepend_rest in H as [b' H]. apply IH in H; simpl in *; lia.
Qed.

Lemma digits_length s : forall acc n a k r,
  digits s acc n = (a, k, r) ->
  String.length r <= String.length s /\ (n < k -> String.length r < String.length s).
Proof.
  induction s as [|c s IH]; simpl; intros acc n a k r H.
  - injection H as _ <- <-. simpl; lia.
  - destruct (digit c).
    + apply IH in H. lia.
    + injection H as _ <- <-. simpl; lia.
Qed.

Lemma integer_length s ip r : integer s = Some (ip, r) -> String.length r < String.length s.
Proof.
  unfold integer. destruct s as [|c s']; [discriminate|].
  destruct (digit c) as [d|] eqn:Hd; [|discriminate].
  destruct (Z.eqb d 0).
  - intros H; injection H as _ <-. simpl; lia.
  - destruct (digits (String c s') 0 0) as [[a k] r'] eqn:Hdig.
    intros H; injection H as _ <-.
    simpl in Hdig. rewrite Hd in Hdig.
    apply digits_length in Hdig. simpl. lia.
Qed.

Lemma fraction_length ip s m k r : fraction ip s = Some (m, k, r) ->
  String.length r <= String.length s.
Proof.
  unfold fraction. destruct (next "." s) as [r0|] eqn:Hn.
  - destruct (digits r0 ip 0) as [[a k'] r'] eqn:Hdig.
    destruct k'; [discriminate|]. intros H; injection H as _ _ <-.
    apply next_length in Hn. apply digits_length in Hdig. lia.
  - intros H; injection H as _ _ <-. lia.
Qed.

Lemma exponent_length s e r : exponent s = Some (e, r) ->
  String.length r <= String.length s.
Proof.
  unfold exponent. destruct s as [|x s']; [intros H; injection H as _ <-; lia|].
  destruct (Ascii.eqb x "e" || Ascii.eqb x "E").
  2:{ intros H; injection H as _ <-; lia. }
  assert (Hsign : forall eneg r',
    (match next "+" s' with
     | Some r' => (false, r')
     | None => match next "-" s' with Some r' => (true, r') | None => (false, s') end
     end) = (eneg, r') -> String.length r' <= String.length s').
  { intros eneg r'. destruct (next "+" s') eqn:H1.
    - intros H; injection H as _ <-. apply next_length in H1. lia.
    - destruct (next "-" s') eqn:H2; intros H; injection H as _ <-.
      + apply next_length in H2. lia.
      + lia. }
  destruct (match next "+" s' with Some r' => (false, r') | None => _ end) as [eneg r'].
  specialize (Hsign _ _ eq_refl).
  destruct (digits r' 0 0) as [[ev ek] s''] eqn:Hdig.
  destruct ek; [discriminate|]. intros H; injection H as _ <-.
  apply digits_length in Hdig. simpl. lia.
Qed.

Lemma number_length s x r : number s = Some (x, r) -> String.length r < String.length s.
Proof.
  unfold number.
  assert (Hs : forall neg s1,
    (match next "-" s with Some r => (true, r) | None => (false, s) end) = (neg, s1) ->
    String.length s1 <= String.length s).
  { intros neg s1. destruct (next "-" s) eqn:H1; intros H; injection H as _ <-.
    - apply next_length in H1. lia.
    - lia. }
  destruct (match next "-" s with Some r => (true, r) | None => (false, s) end) as [neg s1].
  specialize (Hs _ _ eq_refl).
  destruct (integer s1) as [[ip s2]|] eqn:Hi; [|discriminate].
  destruct (fraction ip s2) as [[[m k] s3]|] eqn:Hf; [|discriminate].
  destruct (exponent s3) as [[e s4]|] eqn:He; [|discriminate].
  intros H; injection H as _ <-.
  apply integer_length in Hi. apply fraction_length in Hf. apply exponent_length in He. lia.
Qed.

Lemma drop_prefix_length k : forall s, String.prefix k s = true ->
  String.length (Str.drop (String.length k) s) + String.length k = String.length s.
Proof.
  induction k as [|a k IH]; intros s H; simpl.
  - lia.
  - destruct s as [|b s]; simpl in *; [discriminate|].
    destruct (ascii_dec a b); [|discriminate]. apply IH in H. lia.
Qed.

Lemma keyword_length k v s v' r : k <> "" -> keyword k v s = Parsed v' r ->
  String.length r < String.length s.
Proof.
  unfold keyword. intros Hk. destruct (String.prefix k s) eqn:Hp; [|discriminate].
  intros H; injection H as _ <-. apply drop_prefix_length in Hp.
  destruct k; [congruence|]. simpl in *. lia.
Qed.


Definition shorter (p : parsed) (s : string) : Prop :=
  match p with
  | Parsed _ r => String.length r < String.length s
  | _ => True
  end.

Lemma value_shorter fuel :
  (forall s, shorter (value fuel s) s) /\
  (forall s acc, shorter (elements fuel s acc) s) /\
  (forall s acc, shorter (members fuel s acc) s).
Proof.
  induction fuel as [|f (IHv & IHe & IHm)]; [simpl; auto|].
  split; [|split].
  - intros s. simpl. pose proof (skip_ws_length s) as Hws.
    destruct (skip_ws s) as [|c r]; [exact I|]. simpl in Hws.
    pose proof (skip_ws_length r) as Hwr.
    destruct (Ascii.eqb c "{").
    { destruct (next "}" (skip_ws r)) as [r'|] eqn:Hn.
      - apply next_length in Hn. simpl. lia.
      - specialize (IHm (skip_ws r) []).
        destruct (members f (skip_ws r) []); simpl in *; auto; lia. }
    destruct (Ascii.eqb c "[").
    { destruct (next "]" (skip_ws r)) as [r'|] eqn:Hn.
      - apply next_length in Hn. simpl. lia.
      - specialize (IHe (skip_ws r) []).
        destruct (elements f (skip_ws r) []); simpl in *; auto; lia. }
    destruct (Ascii.eqb c Str.dquote).
    { destruct (string_body r) as [[str r']|] eqn:Hb; [|exact I].
      apply string_body_length in Hb. simpl. lia. }
    assert (Hk : forall k v, k <> "" -> shorter (keyword k v (String c r)) s).
    { intros k v Hk. destruct (keyword k v (String c r)) eqn:E; simpl; auto.
      apply keyword_length in E; auto. simpl in E. lia. }
    destruct (Ascii.eqb c "t"); [apply Hk; discriminate|].
    destruct (Ascii.eqb c "f"); [apply Hk; discriminate|].
    destruct (Ascii.eqb c "n"); [apply Hk; discriminate|].
    destruct (number (String c r)) as [[x r']|] eqn:Hn; [|exact I].
    apply number_length in Hn. simpl in *. lia.
  - intros s acc. simpl. specialize (IHv s).
    destruct (value f s) as [v r| |]; simpl; auto. simpl in IHv.
    pose proof (skip_ws_length r) as Hwr.
    destruct (next "," (skip_ws r)) as [r'|] eqn:Hn.
    + apply next_length in Hn. specialize (IHe r' (v :: acc)).
      destruct (elements f r' (v :: acc)); simpl in *; auto; lia.
    + destruct (next "]" (skip_ws r)) as [r'|] eqn:Hn2; [|exact I].
      apply next_length in Hn2. simpl. lia.
  - intros s acc. simpl. pose proof (skip_ws_length s) as Hws.
    destruct (next Str.dquote (skip_ws s)) as [r|] eqn:Hq; [|exact I].
    apply next_length in Hq.
    destruct (string_body r) as [[k r1]|] eqn:Hb; [|exact I].
    apply string_body_length in Hb. pose proof (skip_ws_length r1) as Hw1.
    destruct (next ":" (skip_ws r1)) as [r2|] eqn:Hc; [|exact I].
    apply next_length in Hc. specialize (IHv r2).
    destruct (value f r2) as [v r3| |]; simpl; auto. simpl in IHv.
    pose proof (skip_ws_length r3) as Hw3.
    destruct (next "," (skip_ws r3)) as [r4|] eqn:Hn.
    + apply next_length in Hn. specialize (IHm r4 (set k v acc)).
      destruct (members f r4 (set k v acc)); simpl in *; auto; lia.
    + destruct (next "}" (skip_ws r3)) as [r4|] eqn:Hn2; [|exact I].
      apply next_length in Hn2. simpl. lia.
Qed.

Lemma value_length fuel s v r : value fuel s = Parsed v r ->
  String.length r < String.length s.
Proof.
  intros H. pose proof (proj1 (value_shorter fuel) s) as Hs.
  rewrite H in Hs. exact Hs.
Qed.

(** With fuel above twice the length of the input no parser runs out. *)
Lemma fuel_enough fuel :
  (forall s, 2 * String.length s < fuel -> value fuel s <> OutOfFuel) /\
  (forall s acc, 2 * String.length s + 1 < fuel -> elements fuel s acc <> OutOfFuel) /\
  (forall s acc, 2 * String.length s + 1 < fuel -> members fuel s acc <> OutOfFuel).
Proof.
  induction fuel as [|f (IHv & IHe & IHm)]; [repeat split; intros; lia|].
  split; [|split].
  - intros s Hf. simpl. pose proof (skip_ws_length s) as Hws.
    destruct (skip_ws s) as [|c r]; [discriminate|]. simpl in Hws.
    pose proof (skip_ws_length r) as Hwr.
    destruct (Ascii.eqb c "{").
    { destruct (next "}" (skip_ws r)); [discriminate|]. apply IHm. lia. }
    destruct (Ascii.eqb c "[").
    { destruct (next "]" (skip_ws r)); [discriminate|]. apply IHe. lia. }
    destruct (Ascii.eqb c Str.dquote).
    { destruct (string_body r) as [[? ?]|]; discriminate. }
    unfold keyword.
    destruct (Ascii.eqb c "t"); [destruct (String.prefix _ _); discriminate|].
    destruct (Ascii.eqb c "f"); [destruct (String.prefix _ _); discriminate|].
    destruct (Ascii.eqb c "n"); [destruct (String.prefix _ _); discriminate|].
    destruct (number (String c r)) as [[? ?]|]; discriminate.
  - intros s acc Hf. simpl.
    pose proof (IHv s) as Hv. destruct (value f s) as [v r| |] eqn:E;
      [|discriminate|exfalso; apply Hv; [lia|reflexivity]].
    apply value_length in E. pose proof (skip_ws_length r) as Hwr.
    destruct (next "," (skip_ws r)) as [r'|] eqn:Hn.
    + apply next_length in Hn. apply IHe. lia.
    + destruct (next "]" (skip_ws r)); discriminate.
  - intros s acc Hf. simpl. pose proof (skip_ws_length s) as Hws.
    destruct (next Str.dquote (skip_ws s)) as [r|] eqn:Hq; [|discriminate].
    apply next_length in Hq.
    destruct (string_body r) as [[k r1]|] eqn:Hb; [|discriminate].
    apply string_body_length in Hb. pose proof (skip_ws_length r1) as Hw1.
    destruct (next ":" (skip_ws r1)) as [r2|] eqn:Hc; [|discriminate].
    apply next_length in Hc.
    pose proof (IHv r2) as Hv. destruct (value f r2) as [v r3| |] eqn:E;
      [|discriminate|exfalso; apply Hv; [lia|reflexivity]].
    apply value_length in E. pose proof (skip_ws_length r3) as Hw3.
    destruct (next "," (skip_ws r3)) as [r4|] eqn:Hn.
    + apply next_length in Hn. apply IHm. lia.
    + destruct (next "}" (skip_ws r3)); discriminate.
Qed.

(** Fuel that was enough stays enough, with the same result. *)
Lemma fuel_monotone f :
  forall g, f <= g ->
  (forall s, value f s <> OutOfFuel -> value g s = value f s) /\
  (forall s acc, elements f s acc <> OutOfFuel -> elements g s acc = elements f s acc) /\
  (forall s acc, members f s acc <> OutOfFuel -> members g s acc = members f s acc).
Proof.
  induction f as [|f IH]; intros g Hle.
  { repeat split; intros; simpl in *; congruence. }
  destruct g as [|g]; [lia|].
  destruct (IH g ltac:(lia)) as (IHv & IHe & IHm).
  split; [|split].
  - intros s. simpl. destruct (skip_ws s) as [|c r]; [reflexivity|].
    destruct (Ascii.eqb c "{"); [destruct (next "}" (skip_ws r)); auto|].
    destruct (Ascii.eqb c "["); [destruct (next "]" (skip_ws r)); auto|].
    reflexivity.
  - intros s acc. simpl. intros H.
    destruct (value f s) as [v r| |] eqn:E; [| |congruence].
    + rewrite (IHv s) by congruence. rewrite E.
      destruct (next "," (skip_ws r)); auto.
    + rewrite (IHv s) by congruence. rewrite E. reflexivity.
  - intros s acc. simpl. intros H.
    destruct (next Str.dquote (skip_ws s)) as [r|]; [|reflexivity].
    destruct (string_body r) as [[k r1]|]; [|reflexivity].
    destruct (next ":" (skip_ws r1)) as [r2|]; [|reflexivity].
    destruct (value f r2) as [v r3| |] eqn:E; [| |congruence].
    + rewrite (IHv r2) by congruence. rewrite E.
      destruct (next "," (skip_ws r3)); auto.
    + rewrite (IHv r2) by congruence. rewrite E. reflexivity.
Qed.

(** Any fuel from [fuel_for] on gives the result [JSON_parse] uses. *)
Lemma value_fuel_irrelevant text fuel : fuel_for text <= fuel ->
  value fuel text = value (fuel_for text) text.
Proof.
  intros H. apply (proj1 (fuel_monotone _ _ H)).
  apply (proj1 (fuel_enough _)). unfold fuel_for. lia.
Qed.

(** [JSON.parse] is total on the model: it returns a value or throws. *)
Lemma JSON_parse_modelled text : JSON_parse text <> Unmodelled.
Proof.
  unfold JSON_parse.
  pose proof (proj1 (fuel_enough (fuel_for text)) text) as H.
  destruct (value (fuel_for text) text) as [v r| |].
  - destruct (skip_ws r); discriminate.
  - discriminate.
  - exfalso. apply H; [unfold fuel_for; lia|reflexivity].
Qed.

End JsonFacts.

(** ** Numbers *)

Module NumFacts.
Local Open Scope float_scope.

Lemma of_nat_0 : Num.of_nat 0 = 0.
Proof. vm_compute. reflexivity. Qed.

(** Division by zero is [NaN] or an infinity. *)
Lemma div_zero x :
  Prim2SF (x / 0) = S754_nan \/ exists s, Prim2SF (x / 0) = S754_infinity s.
Proof.
  rewrite div_spec. change (Prim2SF 0) with (S754_zero false).
  destruct (Prim2SF x); simpl; eauto.
Qed.

Lemma of_spec x sf : Prim2SF x = sf -> x = SF2Prim sf.
Proof. intros <-. symmetry. apply SF2Prim_Prim2SF. Qed.

Lemma round_div_zero x :
  Num.Math_round (x / 0) = x / 0 /\
  Num.isFinite (x / 0) = false /\
  (x / 0 = nan \/ x / 0 = infinity \/ x / 0 = neg_infinity).
Proof.
  unfold Num.Math_round, Num.isFinite.
  destruct (div_zero x) as [H|[s H]]; rewrite H; repeat split; auto.
  - left. apply of_spec in H. exact H.
  - right. apply of_spec in H. rewrite H. destruct s; [right|left]; reflexivity.
Qed.
End NumFacts.

(** ** Strings *)

Module StrFacts.

Lemma append_assoc (a b c : string) : (a ++ b) ++ c = a ++ (b ++ c).
Proof. induction a as [|x a IH]; simpl; [reflexivity|]. now rewrite IH. Qed.

Lemma append_empty_r (a : string) : a ++ "" = a.
Proof. induction a as [|x a IH]; simpl; [reflexivity|]. now rewrite IH. Qed.

Lemma prefix_split p : forall s, String.prefix p s = true -> exists r, s = p ++ r.
Proof.
  induction p as [|a p IH]; intros s H.
  - exists s. reflexivity.
  - destruct s as [|b s]; simpl in H; [discriminate|].
    destruct (ascii_dec a b) as [e|]; [subst b|discriminate].
    destruct (IH s H) as [r e]. subst s. exists r. reflexivity.
Qed.

End StrFacts.

(** ** The model call and the parsing step *)

Module ReplyParsing.
Import Json GeminiService.
Local Open Scope float_scope.

Lemma parseReply_selected text : parseReply text = JSON_parse (Spec.selected text).
Proof.
  unfold parseReply, Spec.selected, Spec.candidates.
  destruct (Regex.json_fence text); [reflexivity|].
  destruct (Regex.plain_fence text); reflexivity.
Qed.

Lemma parseReply_modelled text : parseReply text <> Unmodelled.
Proof. rewrite parseReply_selected. apply JsonFacts.JSON_parse_modelled. Qed.

Lemma firstValid_head c rest v :
  JSON_parse c = Returns v -> Spec.firstValid (c :: rest) = Some v.
Proof. intros H. simpl. rewrite H. reflexivity. Qed.









(** A call that the endpoint answers returns, with these costs. *)
Lemma callGeminiAPI_answered call text um :
  response call = Answered text um ->
  exists reply, callGeminiAPI call = Returns reply /\
    reply_text reply = text /\
    inputTokens (reply_usage reply) = or_else (field um promptTokenCount) 0 /\
    outputTokens (reply_usage reply) = or_else (field um candidatesTokenCount) 0 /\
    inputCost (reply_usage reply)
      = Num.toFixed6 ((inputTokens (reply_usage reply) / 1000) * 0.00125) /\
    outputCost (reply_usage reply)
      = Num.toFixed6 ((outputTokens (reply_usage reply) / 1000) * 0.005) /\
    totalCost (reply_usage reply)
      = Num.toFixed6 ((inputTokens (reply_usage reply) / 1000) * 0.00125
                      + (outputTokens (reply_usage reply) / 1000) * 0.005).
Proof.
  intros H. unfold callGeminiAPI. rewrite H.
  eexists; split; [reflexivity|]. simpl. repeat split.
Qed.

End ReplyParsing.

(** ** The two-phase analysis *)

Module AnalysisFacts.
Import Json GeminiService Spec.
Local Open Scope outcome_scope.

Lemma generateFieldValues_modelled d call : generateFieldValues d call <> Unmodelled.
Proof.
  unfold generateFieldValues, callGeminiAPI.
  destruct (response call) as [e|text um];
    destruct d; simpl; try discriminate;
    pose proof (ReplyParsing.parseReply_modelled text) as H;
    destruct (parseReply text); simpl; congruence.
Qed.

Lemma withValues_recorded d call entry :
  withValues d call = Returns entry ->
  recorded d (generateFieldValues d call) entry.
Proof.
  unfold withValues, recorded.
  destruct (generateFieldValues d call) as [values|error|].
  - intros H; injection H as <-. simpl. repeat split. eexists; split; reflexivity.
  - destruct d; try discriminate; intros H; injection H as <-; simpl; repeat split.
  - discriminate.
Qed.

Lemma withValues_returns d call :
  d <> JNull -> exists entry, withValues d call = Returns entry.
Proof.
  intros Hd. unfold withValues.
  pose proof (generateFieldValues_modelled d call) as Hm.
  destruct (generateFieldValues d call) as [values|error|]; [eauto| |congruence].
  destruct d; try congruence; eauto.
Qed.


Lemma allFrom_cons index calls d ds entries :
  allFrom index calls (d :: ds) = Returns entries ->
  exists entry rest, entries = entry :: rest /\
    withValues d (calls index) = Returns entry /\
    allFrom (S index) calls ds = Returns rest.
Proof.
  simpl. destruct (withValues d (calls index)) as [entry| |]; simpl; try discriminate.
  destruct (allFrom (S index) calls ds) as [rest| |]; simpl; try discriminate.
  intros H; injection H as <-. eauto.
Qed.


Lemma allFrom_nonnull ds : forall index calls entries,
  allFrom index calls ds = Returns entries -> Forall (fun d => d <> JNull) ds.
Proof.
  induction ds as [|d ds IH]; intros index calls entries H; constructor.
  - apply allFrom_cons in H as (entry & rest & -> & Hw & Hrest).
    intros ->. unfold withValues in Hw. simpl in Hw. discriminate.
  - apply allFrom_cons in H as (entry & rest & -> & Hw & Hrest). eauto.
Qed.

Lemma plain_nonnull ds :
  Forall (fun d => plainDescriptor d = true) ds -> Forall (fun d => d <> JNull) ds.
Proof.
  apply Forall_impl. intros d H ->. discriminate.
Qed.

(** *** The reduction on numbers *)






Lemma added_number_operand v x : added_number v = Some x -> operand v = Returns (Adds x).
Proof.
  unfold added_number. destruct (operand v) as [[y|]| |]; try discriminate.
  intros H; injection H as <-. reflexivity.
Qed.









Lemma plain_summable d : plainDescriptor d = true -> summable d = true.
Proof.
  unfold plainDescriptor, summable.
  destruct d; try discriminate; destruct (descriptorUsage _) as [u|]; try reflexivity;
    intros ->; reflexivity.
Qed.

Lemma update_of_numbers acc a b c d e f :
  exists total, update (numbers acc) (Adds a) (Adds b) (Adds c) (Adds d) (Adds e) (Adds f)
                = numbers total.
Proof.
  exists {| inputTokens := inputTokens acc + a;
            outputTokens := outputTokens acc + b;
            totalTokens := totalTokens acc + c;
            inputCost := inputCost acc + d;
            outputCost := outputCost acc + e;
            totalCost := totalCost acc + f |}%float.
  reflexivity.
Qed.

Lemma accumulate_summable entry acc :
  valueGenerationPerformance entry <> None \/ summable (form entry) = true ->
  exists total, accumulate (numbers acc) entry = Returns (numbers total).
Proof.
  intros H. unfold accumulate.
  destruct (valueGenerationPerformance entry) as [p|].
  - unfold counted_field. destruct (update_of_numbers acc
      (Num.or_default (inputTokens (gen_usage p)) 0)
      (Num.or_default (outputTokens (gen_usage p)) 0)
      (Num.or_default (totalTokens (gen_usage p)) 0)
      (Num.or_default (inputCost (gen_usage p)) 0)
      (Num.or_default (outputCost (gen_usage p)) 0)
      (Num.or_default (totalCost (gen_usage p)) 0)) as [total ->]. eauto.
  - destruct H as [H|H]; [congruence|].
    unfold summable in H.
    destruct (descriptorUsage (form entry)) as [u|] eqn:Hu.
    + destruct (GeminiService.truthy u) eqn:Ht; [|eauto].
      assert (Hc : exists c, carried (form entry) = Some c).
      { destruct (form entry); try discriminate;
          destruct (carried _) as [c|]; try discriminate; eauto. }
      destruct Hc as [c Hc]. unfold carried in Hc. rewrite Hu, Ht in Hc.
      destruct (added_number (get "inputTokens" u)) as [a|] eqn:Ea; [|discriminate].
      destruct (added_number (get "outputTokens" u)) as [b|] eqn:Eb; [|discriminate].
      destruct (added_number (get "totalTokens" u)) as [c'|] eqn:Ec; [|discriminate].
      destruct (added_number (get "inputCost" u)) as [d|] eqn:Ed; [|discriminate].
      destruct (added_number (get "outputCost" u)) as [e|] eqn:Ee; [|discriminate].
      destruct (added_number (get "totalCost" u)) as [f|] eqn:Ef; [|discriminate].
      rewrite (added_number_operand _ _ Ea), (added_number_operand _ _ Eb),
        (added_number_operand _ _ Ec), (added_number_operand _ _ Ed),
        (added_number_operand _ _ Ee), (added_number_operand _ _ Ef).
      cbn [bind]. destruct (update_of_numbers acc a b c' d e f) as [total ->]. eauto.
    + eauto.
Qed.

Lemma reduce_summable entries : forall acc,
  Forall (fun entry => valueGenerationPerformance entry <> None \/
                       summable (form entry) = true) entries ->
  exists total, reduce entries (numbers acc) = Returns (numbers total).
Proof.
  induction entries as [|entry rest IH]; intros acc Hall; cbn [reduce]; [eauto|].
  inversion Hall as [|? ? He Hrest]; subst.
  destruct (accumulate_summable entry acc He) as [total ->]. cbn [bind].
  apply IH. exact Hrest.
Qed.

(** Every element keeps its descriptor, and lacks
    [valueGenerationPerformance] only when its value generation failed. *)
Lemma allFrom_entries ds : forall index calls entries,
  allFrom index calls ds = Returns entries ->
  Forall2 (fun d entry => form entry = d) ds entries.
Proof.
  induction ds as [|d ds IH]; intros index calls entries H.
  - cbn in H. injection H as <-. constructor.
  - apply allFrom_cons in H as (entry & rest & -> & Hw & Hrest).
    apply withValues_recorded in Hw. destruct Hw as [Hform _].
    constructor; [exact Hform|]. exact (IH _ _ _ Hrest).
Qed.

Lemma reduce_returns_summable ds index calls entries acc :
  Forall (fun d => summable d = true) ds ->
  allFrom index calls ds = Returns entries ->
  exists total, reduce entries (numbers acc) = Returns (numbers total).
Proof.
  intros Hds Ha. apply reduce_summable.
  pose proof (allFrom_entries _ _ _ _ Ha) as Hf. clear Ha.
  induction Hf as [|d entry ds' entries' Hform Hrest IH]; constructor.
  - right. rewrite Hform. inversion Hds; assumption.
  - apply IH. inversion Hds; assumption.
Qed.

Lemma reduce_returns ds index calls entries acc :
  Forall (fun d => plainDescriptor d = true) ds ->
  allFrom index calls ds = Returns entries ->
  exists total, reduce entries (numbers acc) = Returns (numbers total).
Proof.
  intros Hds. apply reduce_returns_summable.
  revert Hds. apply Forall_impl. exact plain_summable.
Qed.







End AnalysisFacts.

(** ** The fetcher *)

Module FetcherFacts.
Import HtmlFetcherService Spec.

Section WithUrl.
Context {url : UrlApi}.

Lemma excluded_scheme src : excluded src = true -> hasScheme src = true.
Proof.
  unfold excluded, Str.startsWith. intros H.
  apply orb_true_iff in H as [H|H]; [apply orb_true_iff in H as [H|H]|].
  - apply StrFacts.prefix_split in H as [r ->]. reflexivity.
  - apply StrFacts.prefix_split in H as [r ->]. reflexivity.
  - apply String.eqb_eq in H as ->. reflexivity.
Qed.

Lemma absoluteHttp_scheme src : absoluteHttp src = true -> hasScheme src = true.
Proof.
  unfold absoluteHttp, Str.startsWith. intros H.
  apply orb_true_iff in H as [H|H];
    apply StrFacts.prefix_split in H as [r ->]; reflexivity.
Qed.

Lemma resolveSrc_cases baseUrl src :
  resolveSrc baseUrl src =
    if excluded src then None
    else if absoluteHttp src then Some src
    else againstOrigin baseUrl src.
Proof.
  unfold resolveSrc, excluded, absoluteHttp, againstOrigin.
  destruct (Str.startsWith src "data:" || Str.startsWith src "javascript:"
            || String.eqb src "about:blank"); [reflexivity|].
  destruct (Str.startsWith src "http://"); [reflexivity|].
  destruct (Str.startsWith src "https://"); reflexivity.
Qed.

Lemma resolveSrc_no_scheme baseUrl src :
  hasScheme src = false -> resolveSrc baseUrl src = againstOrigin baseUrl src.
Proof.
  intros H. rewrite resolveSrc_cases.
  destruct (excluded src) eqn:He; [apply excluded_scheme in He; congruence|].
  destruct (absoluteHttp src) eqn:Ha; [apply absoluteHttp_scheme in Ha; congruence|].
  reflexivity.
Qed.

Lemma resolveSrc_origin base1 base2 src :
  URL_origin base1 = URL_origin base2 -> resolveSrc base1 src = resolveSrc base2 src.
Proof. intros H. unfold resolveSrc. rewrite H. reflexivity. Qed.

Lemma pushAll_origin base1 base2 found :
  URL_origin base1 = URL_origin base2 -> pushAll base1 found = pushAll base2 found.
Proof.
  intros H. induction found as [|m rest IH]; simpl; [reflexivity|].
  rewrite (resolveSrc_origin base1 base2 m H), IH. reflexivity.
Qed.

Lemma pushAll_app baseUrl l1 l2 :
  pushAll baseUrl (l1 ++ l2) = (pushAll baseUrl l1 ++ pushAll baseUrl l2)%list.
Proof.
  induction l1 as [|m rest IH]; simpl; [reflexivity|].
  destruct (resolveSrc baseUrl m); simpl; rewrite IH; reflexivity.
Qed.

Lemma pushAll_In baseUrl found src resolved :
  In src found -> resolveSrc baseUrl src = Some resolved ->
  In resolved (pushAll baseUrl found).
Proof.
  induction found as [|m rest IH]; simpl; [tauto|].
  intros [->|Hin] Hr.
  - rewrite Hr. left. reflexivity.
  - destruct (resolveSrc baseUrl m); [right|]; auto.
Qed.

Lemma pushAll_flat_map baseUrl found :
  pushAll baseUrl found
    = flat_map (fun src => match resolveSrc baseUrl src with
                           | Some s => [s]
                           | None => []
                           end)
        (filter (fun s => negb (excluded s)) found).
Proof.
  induction found as [|m rest IH]; simpl; [reflexivity|].
  destruct (excluded m) eqn:He; simpl.
  - rewrite resolveSrc_cases, He. exact IH.
  - destruct (resolveSrc baseUrl m); simpl; rewrite IH; reflexivity.
Qed.

(** When every source that is not excluded resolves, the output has one
    entry for each of them. *)
Lemma pushAll_length baseUrl found :
  (forall src, In src found -> excluded src = false -> resolveSrc baseUrl src <> None) ->
  List.length (pushAll baseUrl found)
    = List.length (filter (fun s => negb (excluded s)) found).
Proof.
  induction found as [|m rest IH]; simpl; intros H; [reflexivity|].
  assert (IH' := IH (fun s Hs => H s (or_intror Hs))).
  destruct (excluded m) eqn:He; simpl.
  - rewrite resolveSrc_cases, He. exact IH'.
  - destruct (resolveSrc baseUrl m) eqn:Hr; simpl; [congruence|].
    exfalso. exact (H m (or_introl eq_refl) He Hr).
Qed.

End WithUrl.

Lemma appendFrom_pieces iframeContents : forall index combined,
  appendFrom index combined iframeContents
    = combined ++ pieces contributes index iframeContents.
Proof.
  induction iframeContents as [|iframe rest IH]; intros index combined;
    cbn [appendFrom pieces].
  - symmetry. apply StrFacts.append_empty_r.
  - rewrite IH. unfold contributes.
    destruct (success iframe && negb (String.eqb (content iframe) "")).
    + rewrite !StrFacts.append_assoc. reflexivity.
    + reflexivity.
Qed.

Lemma fetchAllFrom_length srcs : forall index net,
  List.length (fetchAllFrom index net srcs) = List.length srcs.
Proof. induction srcs as [|s rest IH]; intros; simpl; [reflexivity|]. now rewrite IH. Qed.

Lemma fetchAllFrom_src srcs : forall index net,
  map src (fetchAllFrom index net srcs) = srcs.
Proof.
  induction srcs as [|s rest IH]; intros; simpl; [reflexivity|].
  rewrite IH. destruct (net index s); reflexivity.
Qed.

Lemma fetchAllFrom_nth srcs : forall index net i s,
  nth_error srcs i = Some s ->
  nth_error (fetchAllFrom index net srcs) i = Some (fetchIframe (net (index + i) s) s).
Proof.
  induction srcs as [|s0 rest IH]; intros index net [|i] s H; simpl in *; try discriminate.
  - injection H as <-. rewrite Nat.add_0_r. reflexivity.
  - rewrite (IH (S index) net i s H).
    replace (index + S i)%nat with (S index + i)%nat by lia. reflexivity.
Qed.

Lemma filter_split {A} (p : A -> bool) (l : list A) :
  (List.length (filter p l) + List.length (filter (fun x => negb (p x)) l)
   = List.length l)%nat.
Proof.
  induction l as [|x l IH]; simpl; [reflexivity|].
  destruct (p x); simpl; lia.
Qed.

Section Fetch.
Context {url : UrlApi}.

Lemma fetchWithIframes_inv pageUrl html net result srcs :
  fetchWithIframes pageUrl (Body html) net = Returns result ->
  extractIframeSrcs html pageUrl = srcs ->
  mainHtml result = html /\
  iframes result = fetchAllFrom 0 net srcs /\
  combinedHtml result = combineHtml html (iframes result) /\
  stats result =
    match srcs with
    | [] => None
    | _ :: _ => Some {|
        totalIframes := Z.of_nat (List.length srcs);
        successfulIframes := count (iframes result);
        failedIframes := Z.of_nat (List.length srcs) - count (iframes result) |}
    end.
Proof.
  unfold fetchWithIframes. cbv zeta. intros H E. rewrite E in H.
  destruct srcs as [|s rest].
  - simpl in H. injection H as <-. simpl. repeat split.
  - change (List.length (s :: rest) =? 0)%nat with false in H. cbv iota in H.
    injection H as <-. cbn [mainHtml iframes combinedHtml stats]. repeat split.
Qed.

Lemma stats_counts pageUrl main net result st :
  fetchWithIframes pageUrl main net = Returns result ->
  stats result = Some st ->
  totalIframes st = Z.of_nat (List.length (iframes result)) /\
  successfulIframes st = Z.of_nat (List.length (filter success (iframes result))) /\
  failedIframes st
    = Z.of_nat (List.length (filter (fun i => negb (success i)) (iframes result))).
Proof.
  intros H Hst. destruct main as [html|e]; [|discriminate].
  remember (extractIframeSrcs html pageUrl) as srcs eqn:E. symmetry in E.
  destruct (fetchWithIframes_inv pageUrl html net result srcs H E)
    as (_ & Hif & _ & Hstats).
  pose proof (fetchAllFrom_length srcs 0 net) as Hlen.
  rewrite <- Hif in Hlen.
  pose proof (filter_split success (iframes result)) as Hsplit.
  rewrite Hstats, <- Hlen in Hst.
  destruct srcs as [|s rest]; [discriminate|].
  injection Hst as <-.
  cbn [totalIframes successfulIframes failedIframes]. unfold count.
  repeat split; lia.
Qed.

End Fetch.

End FetcherFacts.

(** ** The modelled built-ins at work *)

Module BuiltinsAtWork.

Import Json.
Local Open Scope float_scope.

(** Decimal literals are read as Rocq reads its own float literals. *)
Example numbers_parse :
  map (fun t => JSON_parse t) ["0.1"; "1e23"; "-0"; "2.5e-3"; "5e-324"; "1e400"; "-12.50E+2"]
    = map (fun x => Returns (JNum x)) [0.1; 1e23; -0; 0.0025; 5e-324; infinity; -1250].
Proof. vm_compute. reflexivity. Qed.

Example values_parse :
  JSON_parse (Str.dq " { 'k' : [1, true, null, 'a\nb\u0041'], 'k' : {'n': {}}, 'e' : [ ] } ")
    = Returns (JObj [("k", JObj [("n", JObj [])]); ("e", JArr [])]) /\
  JSON_parse (Str.dq "['\u00e9']")
    = Returns (JArr [JStr (String (ascii_of_nat 195) (String (ascii_of_nat 169) ""))]).
Proof. split; vm_compute; reflexivity. Qed.

Example malformed_texts_throw :
  forall t,
    In t (map Str.dq ["01"; "[1,]"; "{'a':1,}"; "1."; ".5"; "-"; "1e"; "+1"; "tru"; "[1 2]";
                      "{'a' 1}"; "{a:1}"; "'abc"; "'\x'"; "'\u12g4'"; ""; "[[["; "{}x";
                      "1 2"; "NaN"; "undefined"]) ->
    JSON_parse t = Throws syntax_error.
Proof.
  intros t H. repeat (destruct H as [<-|H]; [vm_compute; reflexivity|]). destruct H.
Qed.

Example rounding :
  map Num.Math_round [0.5; 1.5; 2.5; -0.5; -1.5; 0.49999999999999994; 3.7; -3.7; 357.14]
    = [1; 2; 3; -0; -1; 0; 4; -4; 357] /\
  map Num.toFixed6 [0.0075; 1.25e-6; 0.0000005; 1.0000005; -0.0000001; 123.4567895; 1e21]
    = [0.0075; 0.000001; 0; 1.000001; -0; 123.456789; 1e21].
Proof. split; vm_compute; reflexivity. Qed.

(** The iframe expression: upper case matches; the greedy [[^>]+] makes the
    last [src=] of a tag the one that is captured; a tag needs a character
    between [<iframe] and [src=], a quoted and non-empty source. *)
Example iframe_expression :
  Regex.exec_all 0 "<p><IFRAME SRC='a'></IFRAME><iframe data-src='b' src='c'>"
    = ["a"; "c"] /\
  Regex.exec_all 0 "<iframe src='a' data-src='b'>" = ["b"] /\
  Regex.exec_all 0 "<iframesrc='a'><iframe src=b><iframe src=''><iframe> src='c'" = [] /\
  Regex.exec_all 0 (Str.dq "<iframe id='f' src='https://a.example/x?y=1' width=1>")
    = ["https://a.example/x?y=1"].
Proof. repeat split; vm_compute; reflexivity. Qed.

Example fences :
  Regex.json_fence Examples.fenced_json = Some (Str.dq "{'a':1}") /\
  Regex.plain_fence Examples.fenced_json = None /\
  Regex.json_fence Examples.bare_json = None /\
  Regex.json_fence (Regex.fence ++ "json" ++ Str.nl ++ Regex.fence) = None /\
  Regex.json_fence (Regex.fence ++ "json" ++ Str.nl ++ Str.nl ++ Regex.fence) = Some "".
Proof. repeat split; vm_compute; reflexivity. Qed.

End BuiltinsAtWork.

(** ** Texts and the expressions *)

Module TextFacts.

Lemma prefix_app p r : String.prefix p (p ++ r) = true.
Proof.
  induction p as [|a p IH]; simpl.
  - destruct r; reflexivity.
  - destruct (ascii_dec a a); [exact IH|congruence].
Qed.

Lemma drop_app p r : Str.drop (String.length p) (p ++ r) = r.
Proof. induction p as [|a p IH]; simpl; [reflexivity|exact IH]. Qed.

Lemma prefix_drop p s : String.prefix p s = true -> s = p ++ Str.drop (String.length p) s.
Proof.
  intros H. destruct (StrFacts.prefix_split p s H) as [r ->].
  now rewrite drop_app.
Qed.

Lemma includes_head s p : String.prefix p s = true -> Str.includes s p = true.
Proof. intros H. destruct s; cbn [Str.includes]; rewrite H; reflexivity. Qed.

Lemma includes_intro pre p post : Str.includes (pre ++ p ++ post) p = true.
Proof.
  induction pre as [|a pre IH].
  - apply includes_head. exact (prefix_app p post).
  - simpl. rewrite IH. apply orb_true_r.
Qed.

Lemma includes_ci_tail a s p : Str.includes_ci (String a s) p = false ->
  Str.prefix_ci p (String a s) = false /\ Str.includes_ci s p = false.
Proof. simpl. intros H. apply orb_false_iff in H. exact H. Qed.

End TextFacts.

Module FenceFacts.

Import TextFacts.

Lemma lazy_until_sound close s : forall inner,
  Regex.lazy_until close s = Some inner -> exists post, s = inner ++ close ++ post.
Proof.
  induction s as [|a s IH]; intros inner; cbn [Regex.lazy_until].
  - destruct (String.prefix close "") eqn:E; [|discriminate].
    intros H; injection H as <-. destruct (StrFacts.prefix_split _ _ E) as [r e].
    exists r. exact e.
  - destruct (String.prefix close (String a s)) eqn:E.
    + intros H; injection H as <-. destruct (StrFacts.prefix_split _ _ E) as [r e].
      exists r. exact e.
    + destruct (Regex.lazy_until close s) as [c|]; cbn [option_map]; [|discriminate].
      intros H; injection H as <-. destruct (IH c eq_refl) as [post ->].
      exists post. reflexivity.
Qed.

Lemma lazy_until_complete close post inner :
  Regex.lazy_until close (inner ++ close ++ post) <> None.
Proof.
  induction inner as [|a inner IH].
  - change ("" ++ close ++ post) with (close ++ post).
    pose proof (prefix_app close post) as E.
    destruct (close ++ post); cbn [Regex.lazy_until]; rewrite E; discriminate.
  - change (String a inner ++ close ++ post) with (String a (inner ++ close ++ post)).
    cbn [Regex.lazy_until].
    destruct (String.prefix close (String a (inner ++ close ++ post))); [discriminate|].
    destruct (Regex.lazy_until close (inner ++ close ++ post)); [discriminate|].
    exfalso. apply IH. reflexivity.
Qed.

Lemma fence_here_sound open s inner :
  Regex.fence_here open s = Some inner ->
  exists post, s = open ++ inner ++ (Str.nl ++ Regex.fence) ++ post.
Proof.
  unfold Regex.fence_here. destruct (String.prefix open s) eqn:E; [|discriminate].
  intros H. destruct (lazy_until_sound _ _ _ H) as [post e].
  exists post. rewrite <- e. apply prefix_drop. exact E.
Qed.

Lemma fence_here_complete open inner post :
  Regex.fence_here open (open ++ inner ++ (Str.nl ++ Regex.fence) ++ post) <> None.
Proof.
  unfold Regex.fence_here. rewrite prefix_app, drop_app. apply lazy_until_complete.
Qed.

Lemma fence_match_sound open s : forall inner,
  Regex.fence_match open s = Some inner -> Layout.fenced open inner s.
Proof.
  induction s as [|a s IH]; intros inner; simpl.
  - destruct (Regex.fence_here open "") as [c|] eqn:E; [|discriminate].
    intros H; injection H as <-. destruct (fence_here_sound _ _ _ E) as [post e].
    exists "", post. exact e.
  - destruct (Regex.fence_here open (String a s)) as [c|] eqn:E.
    + intros H; injection H as <-. destruct (fence_here_sound _ _ _ E) as [post e].
      exists "", post. exact e.
    + intros H. destruct (IH _ H) as (pre & post & ->).
      exists (String a pre), post. reflexivity.
Qed.

Lemma fence_match_here open s :
  Regex.fence_here open s <> None -> Regex.fence_match open s <> None.
Proof.
  destruct s; simpl; destruct (Regex.fence_here open _); congruence.
Qed.

Lemma fence_match_complete open inner s :
  Layout.fenced open inner s -> Regex.fence_match open s <> None.
Proof.
  intros (pre & post & ->). induction pre as [|a pre IH].
  - apply fence_match_here. apply fence_here_complete.
  - change (String a pre ++ ?x) with (String a (pre ++ x)). simpl.
    destruct (Regex.fence_here open _); [discriminate|]. exact IH.
Qed.

Lemma fenced_includes open inner s :
  Layout.fenced (Regex.fence ++ open) inner s -> Str.includes s Regex.fence = true.
Proof.
  intros (pre & post & ->). rewrite StrFacts.append_assoc. apply includes_intro.
Qed.

End FenceFacts.

Module IframeFacts.

Import TextFacts Layout.

Lemma until_quote_sound s : forall g,
  Regex.until_quote s = Some g ->
  Str.all not_quote g = true /\
  exists q rest, s = g ++ String q rest /\ Regex.is_quote q = true.
Proof.
  induction s as [|a s IH]; intros g; simpl; [discriminate|].
  destruct (Regex.is_quote a) eqn:E.
  - intros H; injection H as <-. split; [reflexivity|]. exists a, s. split; [reflexivity|exact E].
  - destruct (Regex.until_quote s) as [c|]; simpl; [|discriminate].
    intros H; injection H as <-. destruct (IH c eq_refl) as (Hall & q & rest & -> & Hq).
    split.
    + simpl. unfold not_quote at 1. rewrite E. exact Hall.
    + exists q, rest. split; [reflexivity|exact Hq].
Qed.

Lemma quoted_sound s g :
  Regex.quoted s = Some g ->
  g <> "" /\ Str.all not_quote g = true /\
  exists q rest, s = g ++ String q rest /\ Regex.is_quote q = true.
Proof.
  unfold Regex.quoted. destruct (Regex.until_quote s) as [[|c r]|] eqn:E; try discriminate.
  intros H; injection H as <-. split; [discriminate|].
  exact (until_quote_sound _ _ E).
Qed.

Lemma captured_cons a g s : captured g s -> captured g (String a s).
Proof.
  intros (H1 & H2 & pre & q1 & q2 & post & -> & Hq).
  repeat split; try assumption. exists (String a pre), q1, q2, post. split; [reflexivity|exact Hq].
Qed.

Lemma captured_drop n : forall g s, captured g (Str.drop n s) -> captured g s.
Proof.
  induction n as [|n IH]; intros g s; [exact (fun H => H)|].
  destruct s as [|a s]; simpl; [exact (fun H => H)|].
  intros H. apply captured_cons. apply IH. exact H.
Qed.

Lemma src_attr_sound s g n : Regex.src_attr s = Some (g, n) -> captured g s.
Proof.
  unfold Regex.src_attr. destruct (Str.prefix_ci "src=" s); [|discriminate].
  destruct (Str.drop 4 s) as [|q r] eqn:E; [discriminate|].
  destruct (Regex.is_quote q) eqn:Hq; [|discriminate].
  destruct (Regex.quoted r) as [c|] eqn:Hc; [|discriminate].
  intros H; injection H as <- _.
  apply (captured_drop 4). rewrite E.
  destruct (quoted_sound _ _ Hc) as (H1 & H2 & q2 & rest & -> & Hq2).
  repeat split; try assumption. exists "", q, q2, rest. repeat split; assumption.
Qed.

Lemma tag_rest_sound s : forall g n, Regex.tag_rest s = Some (g, n) -> captured g s.
Proof.
  induction s as [|a s IH]; intros g n; simpl; [discriminate|].
  destruct (negb (Ascii.eqb a ">")).
  - destruct (Regex.tag_rest s) as [[c m]|] eqn:E.
    + intros H; injection H as <- _. apply captured_cons. exact (IH _ _ eq_refl).
    + apply src_attr_sound.
  - apply src_attr_sound.
Qed.

Lemma iframe_here_sound s g n : Regex.iframe_here s = Some (g, n) -> captured g s.
Proof.
  unfold Regex.iframe_here. destruct (Str.prefix_ci "<iframe" s); [|discriminate].
  destruct (Str.drop 7 s) as [|c r] eqn:E; [discriminate|].
  destruct (negb (Ascii.eqb c ">")); [|discriminate].
  destruct (Regex.tag_rest r) as [[c' m]|] eqn:Ht; [|discriminate].
  intros H; injection H as <- _.
  apply (captured_drop 7). rewrite E. apply captured_cons. exact (tag_rest_sound _ _ _ Ht).
Qed.

Lemma exec_all_sound s : forall skip g, In g (Regex.exec_all skip s) -> captured g s.
Proof.
  induction s as [|a s IH]; intros skip g; simpl; [tauto|].
  destruct skip as [|k].
  - destruct (Regex.iframe_here (String a s)) as [[c n]|] eqn:E.
    + intros [<-|H].
      * exact (iframe_here_sound _ _ _ E).
      * apply captured_cons. exact (IH _ _ H).
    + intros H. apply captured_cons. exact (IH _ _ H).
  - intros H. apply captured_cons. exact (IH _ _ H).
Qed.

Lemma exec_all_none s : forall skip,
  Str.includes_ci s "<iframe" = false -> Regex.exec_all skip s = [].
Proof.
  induction s as [|a s IH]; intros skip H; [reflexivity|].
  destruct (includes_ci_tail _ _ _ H) as [Hp Hs].
  cbn [Regex.exec_all]. destruct skip as [|k]; [|exact (IH _ Hs)].
  unfold Regex.iframe_here. rewrite Hp. exact (IH _ Hs).
Qed.

End IframeFacts.

(** ** Failures of the services, and the routes *)

Module ServiceFacts.

Import Json GeminiService.
Local Open Scope outcome_scope.


Lemma excluded_not_http src : Spec.excluded src = true -> Spec.absoluteHttp src = false.
Proof.
  unfold Spec.excluded, Spec.absoluteHttp, Str.startsWith. intros Hx.
  destruct (String.prefix "http://" src || String.prefix "https://" src) eqn:Hh;
    [|reflexivity].
  exfalso.
  assert (Hfirst : exists r, src = String "h" r).
  { apply orb_true_iff in Hh.
    destruct Hh as [H|H]; destruct (StrFacts.prefix_split _ _ H) as [r ->];
      eexists; reflexivity. }
  destruct Hfirst as [r ->].
  apply orb_true_iff in Hx. destruct Hx as [Hx|Hx];
    [apply orb_true_iff in Hx; destruct Hx as [Hx|Hx]|].
  - destruct (StrFacts.prefix_split _ _ Hx) as [r' E]. discriminate.
  - destruct (StrFacts.prefix_split _ _ Hx) as [r' E]. discriminate.
  - apply String.eqb_eq in Hx. discriminate.
Qed.

Lemma withValues_cases d call :
  (d = JNull /\ withValues d call = Throws null_formId) \/
  (d <> JNull /\ exists entry, withValues d call = Returns entry).
Proof.
  destruct d; try (right; split; [discriminate|apply AnalysisFacts.withValues_returns; discriminate]).
  left. split; reflexivity.
Qed.


Lemma allFrom_modelled ds : forall index calls, allFrom index calls ds <> Unmodelled.
Proof.
  induction ds as [|d ds IH]; intros index calls; cbn [allFrom]; [discriminate|].
  destruct (withValues_cases d (calls index)) as [[-> H]|[Hd [entry H]]]; rewrite H; cbn [bind].
  - discriminate.
  - specialize (IH (S index) calls).
    destruct (allFrom (S index) calls ds); cbn [bind]; congruence.
Qed.


Lemma operand_modelled v : operand v <> Unmodelled.
Proof.
  destruct v as [[|b|y|txt|l|l]|]; cbn [operand]; try discriminate.
  - destruct (convertible (JArr l)); discriminate.
  - destruct (convertible (JObj l)); discriminate.
Qed.





End ServiceFacts.

Module RouteFacts.

Import Json GeminiService HtmlFetcherService ScannerRoutes.

Lemma answering_cases {A B : Type} (work : outcome A) (send : A -> Response B) r :
  answering work send = Returns r <->
  (exists result, work = Returns result /\ r = send result) \/
  (exists error, work = Throws error /\ r = serverError error).
Proof.
  unfold answering. destruct work as [a|e|].
  - split.
    + intros H; injection H as <-. left. exists a. auto.
    + intros [(x & H & ->)|(x & H & _)]; [injection H as <-; reflexivity|discriminate].
  - split.
    + intros H; injection H as <-. right. exists e. auto.
    + intros [(x & H & _)|(x & H & ->)]; [discriminate|injection H as <-; reflexivity].
  - split; [discriminate|]. intros [(x & H & _)|(x & H & _)]; discriminate.
Qed.

Lemma answering_never_throws {A B : Type} (work : outcome A) (send : A -> Response B) e :
  answering work send <> Throws e.
Proof. unfold answering. destruct work; discriminate. Qed.

Section WithUrl.

Context {url : UrlApi}.

Lemma checkedUrl_cases {A : Type} body :
  @checkedUrl url A body = Unmodelled \/
  (missing (get "url" body) = true /\
     @checkedUrl url A body = Returns (inl (badRequest "URL is required"))) \/
  (exists u, get "url" body = Some (JStr u) /\ u <> "" /\ URL_origin u = None /\
     @checkedUrl url A body = Returns (inl (badRequest "Invalid URL format"))) \/
  (exists v, get "url" body = Some v /\ noAddress v = true /\
     @checkedUrl url A body = Returns (inl (badRequest "Invalid URL format"))) \/
  (exists u, get "url" body = Some (JStr u) /\ u <> "" /\ URL_origin u <> None /\
     @checkedUrl url A body = Returns (inr u)).
Proof.
  unfold checkedUrl, missing. destruct (get "url" body) as [v|]; [|auto].
  assert (Hother : forall w : json,
            (forall u, w <> JStr u) ->
            (if truthy w
             then if colonFree w
                  then Returns (inl (badRequest "Invalid URL format"))
                  else Unmodelled
             else Returns (inl (badRequest "URL is required")))
            = (Unmodelled : outcome (Response A + string)) \/
            (negb (truthy w) = true /\
             (if truthy w
              then if colonFree w
                   then Returns (inl (badRequest "Invalid URL format"))
                   else Unmodelled
              else Returns (inl (badRequest "URL is required")))
             = (Returns (inl (badRequest "URL is required"))
                : outcome (Response A + string))) \/
            (noAddress w = true /\
             (if truthy w
              then if colonFree w
                   then Returns (inl (badRequest "Invalid URL format"))
                   else Unmodelled
              else Returns (inl (badRequest "URL is required")))
             = (Returns (inl (badRequest "Invalid URL format"))
                : outcome (Response A + string)))).
  { intros w Hw. unfold noAddress.
    destruct (truthy w) eqn:Ht; [|auto].
    destruct (colonFree w) eqn:Hc; [|auto].
    right. right. split; [|reflexivity].
    destruct w; try reflexivity. exfalso. exact (Hw s eq_refl). }
  destruct v as [|b|x|u|l|l].
  1, 2, 3, 5, 6:
    cbv beta iota;
    match goal with
    | |- context [truthy ?w] =>
        destruct (Hother w ltac:(discriminate)) as [H|[[Hm H]|[Hn H]]];
        [left; exact H
        |right; left; split; [exact Hm|exact H]
        |right; right; right; left; exists w;
         split; [reflexivity|split; [exact Hn|exact H]]]
    end.
  cbn [truthy negb].
  destruct (String.eqb u "") eqn:E; [auto|].
  apply String.eqb_neq in E.
  destruct (URL_origin u) as [o|] eqn:Ho.
  - right; right; right; right. exists u. repeat split; auto. congruence.
  - right; right; left. exists u. repeat split; auto.
Qed.

Lemma checkedUrl_valid {A : Type} body u :
  get "url" body = Some (JStr u) -> u <> "" -> URL_origin u <> None ->
  @checkedUrl url A body = Returns (inr u).
Proof.
  intros Hg Hu Ho. unfold checkedUrl. rewrite Hg.
  apply String.eqb_neq in Hu. rewrite Hu. destruct (URL_origin u); congruence.
Qed.

Lemma checkedUrl_invalid {A : Type} body u :
  get "url" body = Some (JStr u) -> u <> "" -> URL_origin u = None ->
  @checkedUrl url A body = Returns (inl (badRequest "Invalid URL format")).
Proof.
  intros Hg Hu Ho. unfold checkedUrl. rewrite Hg.
  apply String.eqb_neq in Hu. rewrite Hu, Ho. reflexivity.
Qed.

Lemma checkedUrl_missing {A : Type} body :
  missing (get "url" body) = true ->
  @checkedUrl url A body = Returns (inl (badRequest "URL is required")).
Proof.
  unfold checkedUrl, missing. destruct (get "url" body) as [v|]; [|reflexivity].
  destruct v as [|b|x|u|l|l]; cbn [truthy]; try discriminate; try reflexivity.
  - destruct b; [discriminate|reflexivity].
  - destruct (Num.truthy x); [discriminate|reflexivity].
  - destruct (String.eqb u ""); [reflexivity|discriminate].
Qed.

Lemma checkedUrl_noAddress {A : Type} body v :
  get "url" body = Some v -> noAddress v = true ->
  @checkedUrl url A body = Returns (inl (badRequest "Invalid URL format")).
Proof.
  intros Hg Hn. unfold checkedUrl. rewrite Hg. unfold noAddress in Hn.
  destruct v; try discriminate;
    apply andb_true_iff in Hn; destruct Hn as [Ht Hc]; rewrite Ht, Hc; reflexivity.
Qed.

Lemma fetchAndLog_cases u main net :
  match main with
  | Failed e => fetchAndLog u main net = Throws e
  | Body html =>
      match extractIframeSrcs html u with
      | [] => fetchAndLog u main net = Throws undefined_stats
      | _ :: _ =>
          exists result st, fetchWithIframes u main net = Returns result /\
            stats result = Some st /\ fetchAndLog u main net = Returns (result, st)
      end
  end.
Proof.
  unfold fetchAndLog, fetchWithIframes. destruct main as [html|e]; [|reflexivity].
  destruct (extractIframeSrcs html u) as [|s srcs]; [reflexivity|].
  cbn [List.length Nat.eqb bind statsOf stats]. eexists. eexists.
  split; [reflexivity|]. split; reflexivity.
Qed.

End WithUrl.

End RouteFacts.

(** * The claims *)

Import Json GeminiService HtmlFetcherService Spec Examples.

(** ** C1: tolerant JSON extraction *)




(** ** C2: no iframes *)

(** C2, evaluated on the code.  When the page has no qualifying iframe source
    the combined text is the main body, as claimed, but the result carries no
    [stats] at all: the early return leaves the key out, where the claim (and
    the routes, which read [result.stats.successfulIframes]) expect a record
    of zeros. *)
Theorem C2_zero_iframes_without_stats :
  forall (url : UrlApi) pageUrl html net,
    extractIframeSrcs html pageUrl = [] ->
    fetchWithIframes pageUrl (Body html) net
      = Returns {| mainHtml := html; iframes := []; combinedHtml := html; stats := None |}.
Proof.
  intros url pageUrl html net H. unfold fetchWithIframes. rewrite H. reflexivity.
Qed.

(** A page with a form and no frame. *)
Lemma C2_witness :
  @extractIframeSrcs RefUrl.api plain_page page_url = [] /\
  @fetchWithIframes RefUrl.api page_url (Body plain_page) unreachable
    = Returns {| mainHtml := plain_page; iframes := [];
                 combinedHtml := plain_page; stats := None |}.
Proof.
  split.
  - vm_compute. reflexivity.
  - apply (C2_zero_iframes_without_stats RefUrl.api page_url plain_page unreachable).
    vm_compute. reflexivity.
Defined.

(** ** C3: partial-failure isolation *)



(** The same run, evaluated: three entries in the original order, the second
    one marked, the other two populated. *)
Example three_forms_second_fails :
  exists result, analyzeFormsComplete second_fails = Returns result /\
    map form (forms result) = three_descriptors /\
    map suggestedValues (forms result)
      = [Some (JObj [("name", JStr "Ann")]); Some JNull; Some (JObj [("name", JStr "Ann")])] /\
    map validationStatus (forms result)
      = [Some (JObj [("allValidationsSatisfied", JBool true)]);
         Some (JObj [("error", JStr "Failed to generate field values: API Error: 500 - {}")]);
         Some (JObj [("allValidationsSatisfied", JBool true)])] /\
    inputTokens (totalUsage result) = 4100%float /\
    totalCost (totalUsage result) = 0.015375%float.
Proof.
  eexists. split; [vm_compute; reflexivity|]. repeat split.
Qed.

(** A [null] descriptor is outside C3: the [catch] block of the callback
    itself throws, and the whole analysis fails. *)
Example null_descriptor_aborts :
  analyzeFormsComplete
    (clocked (answer (Str.dq "{'forms':[{'formId':'f1'},null]}") None)
       (fun _ => answer values_reply None) 0 0)
    = Throws null_formId.
Proof. vm_compute. reflexivity. Qed.

(** ** C4: usage aggregation *)

(** C4, where the code departs from the claim.  In [unparsable_values] the
    model call made for the only form reports 2000 input tokens and answers
    with text that is not JSON, so the value generation fails after usage was
    reported.  The analysis counts nothing for that form: [totalUsage] is the
    usage of the extraction call alone, not the sum with the reported
    usage. *)
Lemma C4_reported_usage_is_dropped :
  exists result formsData descriptors reply,
    analyzeFormsComplete unparsable_values = Returns result /\
    extractForms (extractionCall unparsable_values) = Returns formsData /\
    formsOf formsData = Returns descriptors /\
    List.length descriptors = 1%nat /\
    callGeminiAPI (valueCall unparsable_values 0) = Returns reply /\
    inputTokens (reply_usage reply) = 2000%float /\
    reported 0 (valueCall unparsable_values) descriptors = [reply_usage reply] /\
    inputTokens (call_usage formsData) = 100%float /\
    inputTokens (totalUsage result) = 100%float /\
    inputTokens (total (call_usage formsData)
                   (reported 0 (valueCall unparsable_values) descriptors)) = 2100%float /\
    totalUsage result
      <> total (call_usage formsData) (reported 0 (valueCall unparsable_values) descriptors).
Proof.
  do 4 eexists.
  split; [vm_compute; reflexivity|].
  split; [vm_compute; reflexivity|].
  split; [vm_compute; reflexivity|].
  split; [reflexivity|].
  split; [vm_compute; reflexivity|].
  split; [reflexivity|].
  split; [vm_compute; reflexivity|].
  split; [reflexivity|].
  split; [reflexivity|].
  split; [vm_compute; reflexivity|].
  vm_compute. intros H. discriminate H.
Qed.



(** A failed form contributes what its own descriptor carries: here 5 input
    tokens that no model call reported. *)
Example carried_usage_is_counted :
  exists result,
    analyzeFormsComplete (carrying (Str.dq "{'inputTokens':5}")) = Returns result /\
    inputTokens (totalUsage result) = 105%float /\
    map suggestedValues (forms result) = [Some JNull].
Proof.
  eexists. split; [vm_compute; reflexivity|]. split; reflexivity.
Qed.

(** ** C5: assembly of the combined text *)

(** C5, where the code departs from the claim.  The only iframe of
    [one_frame] is fetched successfully and its body is empty.  The claim puts
    a marker for it after the main body; the code appends nothing, because it
    also requires the body to be non-empty. *)
Lemma C5_empty_body_counterexample :
  exists result,
    @fetchWithIframes RefUrl.api page_url (Body one_frame) empty_body = Returns result /\
    map src (iframes result) = ["https://example.com/x"] /\
    map success (iframes result) = [true] /\
    map content (iframes result) = [""] /\
    combinedHtml result = one_frame /\
    one_frame ++ pieces success 0 (iframes result)
      = one_frame ++ marker 0 "https://example.com/x" /\
    combinedHtml result <> one_frame ++ pieces success 0 (iframes result).
Proof.
  eexists. split; [vm_compute; reflexivity|].
  repeat split. vm_compute. discriminate.
Qed.

(** C5 (amended).  For every successful [fetchWithIframes] result,
    [combinedHtml] is [mainHtml] followed by, for each successfully fetched
    iframe with a non-empty body, in discovery order, the marker comment
    naming its index and source and then its body.  The iframes are the
    discovered sources in order, each with the outcome of its own fetch;
    failed fetches add no text and are counted in [stats] when the result
    carries one. *)
Theorem C5_combined_text_assembly :
  forall (url : UrlApi) pageUrl html net result,
    fetchWithIframes pageUrl (Body html) net = Returns result ->
    mainHtml result = html /\
    map src (iframes result) = extractIframeSrcs html pageUrl /\
    (forall i s, nth_error (extractIframeSrcs html pageUrl) i = Some s ->
       nth_error (iframes result) i = Some (fetchIframe (net i s) s)) /\
    combinedHtml result = html ++ pieces contributes 0 (iframes result) /\
    (forall st, stats result = Some st ->
       totalIframes st = Z.of_nat (List.length (iframes result)) /\
       failedIframes st
         = Z.of_nat (List.length (filter (fun i => negb (success i)) (iframes result)))).
Proof.
  intros url pageUrl html net result H.
  destruct (FetcherFacts.fetchWithIframes_inv pageUrl html net result _ H eq_refl)
    as (Hmain & Hif & Hcomb & _).
  split; [exact Hmain|].
  split; [rewrite Hif; apply FetcherFacts.fetchAllFrom_src|].
  split; [intros i s Hs; rewrite Hif; exact (FetcherFacts.fetchAllFrom_nth _ 0 net i s Hs)|].
  split; [rewrite Hcomb; apply FetcherFacts.appendFrom_pieces|].
  intros st Hst.
  destruct (FetcherFacts.stats_counts pageUrl (Body html) net result st H Hst)
    as (Ht & _ & Hf).
  auto.
Qed.

(** The page with three frames, the second fetch failing. *)
Lemma C5_witness :
  exists result,
    @fetchWithIframes RefUrl.api page_url (Body framed_page) second_missing = Returns result /\
    mainHtml result = framed_page /\
    map src (iframes result) = @extractIframeSrcs RefUrl.api framed_page page_url /\
    (forall i s, nth_error (@extractIframeSrcs RefUrl.api framed_page page_url) i = Some s ->
       nth_error (iframes result) i = Some (fetchIframe (second_missing i s) s)) /\
    combinedHtml result = framed_page ++ pieces contributes 0 (iframes result) /\
    (forall st, stats result = Some st ->
       totalIframes st = Z.of_nat (List.length (iframes result)) /\
       failedIframes st
         = Z.of_nat (List.length (filter (fun i => negb (success i)) (iframes result)))).
Proof.
  eexists. split.
  - vm_compute. reflexivity.
  - apply (C5_combined_text_assembly RefUrl.api page_url framed_page second_missing).
    vm_compute. reflexivity.
Defined.

(** The same page, evaluated. *)
Example framed_page_combined :
  exists result,
    @fetchWithIframes RefUrl.api page_url (Body framed_page) second_missing = Returns result /\
    map src (iframes result)
      = ["https://example.com/x"; "https://ads.example.org/banner"; "https://example.com/x"] /\
    map success (iframes result) = [true; false; true] /\
    stats result = Some {| totalIframes := 3; successfulIframes := 2; failedIframes := 1 |} /\
    combinedHtml result
      = framed_page
        ++ marker 0 "https://example.com/x" ++ "<form id='inner'></form>"
        ++ marker 2 "https://example.com/x" ++ "<p>again</p>".
Proof.
  eexists. split; [vm_compute; reflexivity|]. repeat split.
Qed.

(** ** C6: relative sources *)

(** C6.  A discovered source that lacks a scheme is resolved against the
    origin of the base location: its resolution against that origin is in the
    output, and two base locations with the same origin give the same output,
    whatever their paths.  With base [https://example.com/a/b] the source
    [/x] gives [https://example.com/x], and so does the source [x], which a
    join with the full base path would send to [https://example.com/a/x]. *)
Theorem C6_relative_sources_resolve_against_origin :
  (forall (url : UrlApi) html baseUrl src origin resolved,
     In src (Regex.exec_all 0 html) ->
     hasScheme src = false ->
     URL_origin baseUrl = Some origin ->
     URL_href src origin = Some resolved ->
     resolveSrc baseUrl src = Some resolved /\
     In resolved (extractIframeSrcs html baseUrl)) /\
  (forall (url : UrlApi) html base1 base2,
     URL_origin base1 = URL_origin base2 ->
     extractIframeSrcs html base1 = extractIframeSrcs html base2) /\
  @extractIframeSrcs RefUrl.api one_frame "https://example.com/a/b"
    = ["https://example.com/x"] /\
  @extractIframeSrcs RefUrl.api bare_frame "https://example.com/a/b"
    = ["https://example.com/x"] /\
  RefUrl.href "x" "https://example.com/a/b" = RefUrl.Valid "https://example.com/a/x".
Proof.
  split; [|split].
  - intros url html baseUrl src origin resolved Hin Hs Ho Hh.
    assert (Hr : resolveSrc baseUrl src = Some resolved).
    { rewrite (FetcherFacts.resolveSrc_no_scheme baseUrl src Hs).
      unfold againstOrigin. rewrite Ho. exact Hh. }
    split; [exact Hr|].
    exact (FetcherFacts.pushAll_In baseUrl _ src resolved Hin Hr).
  - intros url html base1 base2 H. apply FetcherFacts.pushAll_origin. exact H.
  - repeat split; vm_compute; reflexivity.
Qed.

(** The source [/x] found in a page at [https://example.com/a/b]. *)
Lemma C6_witness :
  @resolveSrc RefUrl.api "https://example.com/a/b" "/x" = Some "https://example.com/x" /\
  In "https://example.com/x" (@extractIframeSrcs RefUrl.api one_frame "https://example.com/a/b").
Proof.
  apply (proj1 C6_relative_sources_resolve_against_origin RefUrl.api one_frame
           "https://example.com/a/b" "/x" "https://example.com" "https://example.com/x").
  - vm_compute. left. reflexivity.
  - vm_compute. reflexivity.
  - vm_compute. reflexivity.
  - vm_compute. reflexivity.
Defined.

(** ** C7: discovery, filtering and order *)

(** C7, where the code departs from the claim.  The source [//] of
    [hostless_frame] is none of the excluded kinds, so it remains; it names no
    host, the URL constructor rejects it, and the discoverer drops it: the
    remaining source does not appear in the output. *)
Lemma C7_unresolvable_source_counterexample :
  Regex.exec_all 0 hostless_frame = ["//"] /\
  excluded "//" = false /\
  filter (fun s => negb (excluded s)) (Regex.exec_all 0 hostless_frame) = ["//"] /\
  RefUrl.origin page_url = RefUrl.Valid "https://example.com" /\
  RefUrl.href "//" "https://example.com" = RefUrl.Invalid /\
  @extractIframeSrcs RefUrl.api hostless_frame page_url = [].
Proof. repeat split; vm_compute; reflexivity. Qed.

(** C7 (amended).  For every HTML input the discoverer excludes the sources
    that start with [data:] or [javascript:] or are [about:blank].  Every
    remaining source that starts with [http://] or [https://] appears
    unchanged, and every other remaining source appears as its resolution
    against the origin of the base location, unless that resolution fails, in
    which case it is dropped.  The output follows the order of appearance and
    keeps duplicates: each occurrence contributes on its own, between what
    the occurrences before it and after it contribute.  When no resolution
    fails, the output has one entry per remaining source. *)
Theorem C7_discovery_filter_and_order :
  forall (url : UrlApi) html baseUrl,
    (forall src, excluded src = true -> resolveSrc baseUrl src = None) /\
    (forall src, excluded src = false -> absoluteHttp src = true ->
       resolveSrc baseUrl src = Some src) /\
    (forall src, excluded src = false -> absoluteHttp src = false ->
       resolveSrc baseUrl src = againstOrigin baseUrl src) /\
    extractIframeSrcs html baseUrl
      = flat_map (fun src => match resolveSrc baseUrl src with
                             | Some s => [s]
                             | None => []
                             end)
          (filter (fun s => negb (excluded s)) (Regex.exec_all 0 html)) /\
    (forall before src after resolved,
       Regex.exec_all 0 html = (before ++ src :: after)%list ->
       resolveSrc baseUrl src = Some resolved ->
       extractIframeSrcs html baseUrl
         = (pushAll baseUrl before ++ resolved :: pushAll baseUrl after)%list) /\
    ((forall src, In src (Regex.exec_all 0 html) -> excluded src = false ->
        resolveSrc baseUrl src <> None) ->
     List.length (extractIframeSrcs html baseUrl)
       = List.length (filter (fun s => negb (excluded s)) (Regex.exec_all 0 html))).
Proof.
  intros url html baseUrl.
  split; [intros src H; rewrite FetcherFacts.resolveSrc_cases, H; reflexivity|].
  split; [intros src H1 H2; rewrite FetcherFacts.resolveSrc_cases, H1, H2; reflexivity|].
  split; [intros src H1 H2; rewrite FetcherFacts.resolveSrc_cases, H1, H2; reflexivity|].
  split; [apply FetcherFacts.pushAll_flat_map|].
  split.
  - intros before src after resolved Hf Hr. unfold extractIframeSrcs.
    rewrite Hf, FetcherFacts.pushAll_app. simpl. rewrite Hr. reflexivity.
  - apply FetcherFacts.pushAll_length.
Qed.

(** On [framed_page] every remaining source resolves. *)
Lemma C7_witness :
  List.length (@extractIframeSrcs RefUrl.api framed_page page_url)
    = List.length (filter (fun s => negb (excluded s)) (Regex.exec_all 0 framed_page)).
Proof.
  apply (proj2 (proj2 (proj2 (proj2 (proj2
           (C7_discovery_filter_and_order RefUrl.api framed_page page_url)))))).
  intros src Hin _.
  vm_compute in Hin.
  destruct Hin as [<-|[<-|[<-|[]]]]; vm_compute; discriminate.
Defined.

(** Excluded sources vanish; the others keep their order, the repeated one
    appearing twice. *)
Example discovery_keeps_order_and_duplicates :
  Regex.exec_all 0 mixed_page
    = ["/x"; "https://ads.example.org/banner"; "/x"; "javascript:void(0)"; "about:blank";
       "data:text/html,hi"] /\
  @extractIframeSrcs RefUrl.api mixed_page page_url
    = ["https://example.com/x"; "https://ads.example.org/banner"; "https://example.com/x"].
Proof. split; vm_compute; reflexivity. Qed.

(** ** C8: consistency of the statistics *)

(** C8.  In every [fetchWithIframes] result that carries a [stats] record,
    [successfulIframes + failedIframes = totalIframes]; the three fields
    count the iframes, those fetched and those not. *)
Theorem C8_stats_consistency :
  forall (url : UrlApi) pageUrl main net result st,
    fetchWithIframes pageUrl main net = Returns result ->
    stats result = Some st ->
    (successfulIframes st + failedIframes st = totalIframes st)%Z /\
    totalIframes st = Z.of_nat (List.length (iframes result)) /\
    successfulIframes st = Z.of_nat (List.length (filter success (iframes result))) /\
    failedIframes st
      = Z.of_nat (List.length (filter (fun i => negb (success i)) (iframes result))).
Proof.
  intros url pageUrl main net result st H Hst.
  destruct (FetcherFacts.stats_counts pageUrl main net result st H Hst) as (Ht & Hs & Hf).
  pose proof (FetcherFacts.filter_split success (iframes result)) as Hsplit.
  repeat split; auto. lia.
Qed.

(** The page with three frames, one fetch failing. *)
Lemma C8_witness :
  exists result st,
    @fetchWithIframes RefUrl.api page_url (Body framed_page) second_missing = Returns result /\
    stats result = Some st /\
    (successfulIframes st + failedIframes st = totalIframes st)%Z /\
    totalIframes st = Z.of_nat (List.length (iframes result)) /\
    successfulIframes st = Z.of_nat (List.length (filter success (iframes result))) /\
    failedIframes st
      = Z.of_nat (List.length (filter (fun i => negb (success i)) (iframes result))).
Proof.
  eexists. eexists.
  split; [vm_compute; reflexivity|].
  split; [reflexivity|].
  eapply (C8_stats_consistency RefUrl.api page_url (Body framed_page) second_missing).
  - vm_compute. reflexivity.
  - reflexivity.
Defined.

(** ** C9: cost of a call *)

(** C9.  A call that the endpoint answers returns, and with the token counts
    of its usage record the input cost is [(inputTokens / 1000) * 0.00125],
    the output cost [(outputTokens / 1000) * 0.005] and the total cost their
    sum, each written to the usage record through [toFixed(6)].  The input
    rate is below the output rate.  For 2000 input and 1000 output tokens the
    costs are 0.0025 and 0.005 and the total is 0.0075, before and after the
    rounding. *)
Theorem C9_cost_computation :
  (forall call text um, response call = Answered text um ->
     exists reply, callGeminiAPI call = Returns reply /\
       let u := reply_usage reply in
       inputCost u = Num.toFixed6 ((inputTokens u / 1000) * 0.00125) /\
       outputCost u = Num.toFixed6 ((outputTokens u / 1000) * 0.005) /\
       totalCost u = Num.toFixed6 ((inputTokens u / 1000) * 0.00125
                                   + (outputTokens u / 1000) * 0.005))%float /\
  (0.00125 <? 0.005)%float = true /\
  ((2000 / 1000) * 0.00125 = 0.0025)%float /\
  ((1000 / 1000) * 0.005 = 0.005)%float /\
  ((2000 / 1000) * 0.00125 + (1000 / 1000) * 0.005 = 0.0075)%float /\
  (0.0025 + 0.005 = 0.0075)%float /\
  exists reply, callGeminiAPI call_2000_1000 = Returns reply /\
    inputTokens (reply_usage reply) = 2000%float /\
    outputTokens (reply_usage reply) = 1000%float /\
    inputCost (reply_usage reply) = 0.0025%float /\
    outputCost (reply_usage reply) = 0.005%float /\
    totalCost (reply_usage reply) = 0.0075%float.
Proof.
  split.
  { intros call text um H.
    destruct (ReplyParsing.callGeminiAPI_answered call text um H)
      as (reply & Hr & _ & _ & _ & Hi & Ho & Ht).
    exists reply. cbv zeta. auto. }
  repeat split; try (vm_compute; reflexivity).
  eexists. split; [vm_compute; reflexivity|]. repeat split.
Qed.

(** The call that reports 2000 input and 1000 output tokens. *)
Lemma C9_witness :
  exists reply, callGeminiAPI call_2000_1000 = Returns reply /\
    let u := reply_usage reply in
    (inputCost u = Num.toFixed6 ((inputTokens u / 1000) * 0.00125) /\
     outputCost u = Num.toFixed6 ((outputTokens u / 1000) * 0.005) /\
     totalCost u = Num.toFixed6 ((inputTokens u / 1000) * 0.00125
                                 + (outputTokens u / 1000) * 0.005))%float.
Proof.
  apply (proj1 C9_cost_computation call_2000_1000 "{}" (metadata 2000 1000)).
  reflexivity.
Defined.

(** ** C10: average time per form without forms *)

(** C10.  When the extraction yields an empty forms list the analysis
    returns, with no entry, and [averageTimePerForm] is
    [Math.round(valueGenerationTime / 0)]: it is not a finite number, but
    [NaN] or an infinity. *)
Theorem C10_average_time_without_forms :
  forall run formsData,
    extractForms (extractionCall run) = Returns formsData ->
    formsOf formsData = Returns [] ->
    exists result, analyzeFormsComplete run = Returns result /\
      forms result = [] /\
      let average := averageTimePerForm (performance result) in
      average = Num.Math_round (valueGenerationTime (performance result) / 0)%float /\
      Num.isFinite average = false /\
      (average = nan \/ average = infinity \/ average = neg_infinity).
Proof.
  intros run formsData He Hf.
  unfold analyzeFormsComplete. rewrite He. simpl. rewrite Hf. simpl.
  eexists. split; [reflexivity|]. simpl. split; [reflexivity|].
  rewrite NumFacts.of_nat_0.
  destruct (NumFacts.round_div_zero
              (valueGenerationEndTime run - valueGenerationStartTime run))
    as (Hround & Hfin & Hcases).
  rewrite Hround. auto.
Qed.

(** An extraction without forms whose second phase takes 7 ms. *)
Lemma C10_witness :
  exists result,
    analyzeFormsComplete (no_forms 1700000001500 1700000001507) = Returns result /\
    forms result = [] /\
    let average := averageTimePerForm (performance result) in
    average = Num.Math_round (valueGenerationTime (performance result) / 0)%float /\
    Num.isFinite average = false /\
    (average = nan \/ average = infinity \/ average = neg_infinity).
Proof.
  eapply (C10_average_time_without_forms (no_forms 1700000001500 1700000001507)).
  - vm_compute. reflexivity.
  - vm_compute. reflexivity.
Defined.

(** Seven milliseconds over no form is [Infinity]; no time at all is [NaN]. *)
Example average_time_without_forms :
  (exists result,
     analyzeFormsComplete (no_forms 1700000001500 1700000001507) = Returns result /\
     averageTimePerForm (performance result) = infinity) /\
  (exists result,
     analyzeFormsComplete (no_forms 1700000001500 1700000001500) = Returns result /\
     averageTimePerForm (performance result) = nan).
Proof.
  split; (eexists; split; [vm_compute; reflexivity|reflexivity]).
Qed.

(** * Further properties: failures, matched texts, the routes and their client *)

Import ScannerRoutes Benchmark Layout Requests.

(** ** The services *)

(** X1.  On the result of [fetchWithIframes], [getIframeContent] at the
    position of a discovered source returns the entry of that source, made
    from the answer to its own request; at a negative index and at an index
    from the number of sources on it returns [null]. *)
Theorem getIframeContent_of_fetch :
  forall (url : UrlApi) pageUrl html net result,
    fetchWithIframes pageUrl (Body html) net = Returns result ->
    (forall i s, nth_error (extractIframeSrcs html pageUrl) i = Some s ->
       getIframeContent (iframes result) (Z.of_nat i) = Some (fetchIframe (net i s) s)) /\
    (forall index,
       (index < 0 \/ Z.of_nat (List.length (extractIframeSrcs html pageUrl)) <= index)%Z ->
       getIframeContent (iframes result) index = None).
Proof.
  intros url pageUrl html net result H.
  destruct (FetcherFacts.fetchWithIframes_inv pageUrl html net result _ H eq_refl)
    as (_ & Hif & _).
  rewrite Hif. unfold getIframeContent. rewrite FetcherFacts.fetchAllFrom_length. split.
  - intros i s Hs.
    assert (Hlt : (i < List.length (extractIframeSrcs html pageUrl))%nat)
      by (apply nth_error_Some; congruence).
    replace (0 <=? Z.of_nat i)%Z with true by (symmetry; apply Z.leb_le; lia).
    replace (Z.of_nat i <? Z.of_nat (List.length (extractIframeSrcs html pageUrl)))%Z
      with true by (symmetry; apply Z.ltb_lt; lia).
    rewrite Nat2Z.id. exact (FetcherFacts.fetchAllFrom_nth _ 0 net i s Hs).
  - intros index [Hneg|Hbig].
    + replace (0 <=? index)%Z with false by (symmetry; apply Z.leb_gt; lia). reflexivity.
    + replace (index <? Z.of_nat (List.length (extractIframeSrcs html pageUrl)))%Z
        with false by (symmetry; apply Z.ltb_ge; lia).
      rewrite andb_false_r. reflexivity.
Qed.

(** The page with three frames: the entry of the second one, whose fetch
    failed, and nothing at index 3. *)
Lemma getIframeContent_of_fetch_witness :
  exists result,
    @fetchWithIframes RefUrl.api page_url (Body framed_page) second_missing = Returns result /\
    getIframeContent (iframes result) 1
      = Some {| src := "https://ads.example.org/banner"; content := "";
                success := false; error := Some "HTTP 404: Not Found" |} /\
    getIframeContent (iframes result) 3 = None.
Proof.
  eexists. split; [vm_compute; reflexivity|].
  destruct (getIframeContent_of_fetch RefUrl.api page_url framed_page second_missing _
              ltac:(vm_compute; reflexivity)) as [Hin Hout].
  split.
  - apply (Hin 1%nat "https://ads.example.org/banner"). vm_compute. reflexivity.
  - apply Hout. right. vm_compute. discriminate.
Defined.

(** X2.  A call whose answer carries no [usageMetadata] returns the text with
    a usage record of zeros: zero tokens, zero costs. *)
Theorem callGeminiAPI_without_usage_metadata :
  forall call text,
    response call = Answered text None ->
    callGeminiAPI call =
      Returns {| reply_text := text;
                 reply_timeTaken := (endTime call - startTime call)%float;
                 reply_timestamp := isoTime call;
                 reply_usage := {| inputTokens := 0; outputTokens := 0; totalTokens := 0;
                                   inputCost := 0; outputCost := 0; totalCost := 0 |} |}.
Proof.
  intros call text H. unfold callGeminiAPI. rewrite H. reflexivity.
Qed.

Lemma callGeminiAPI_without_usage_metadata_witness :
  response (answer "{}" None) = Answered "{}" None /\
  callGeminiAPI (answer "{}" None) =
    Returns {| reply_text := "{}";
               reply_timeTaken := 1500;
               reply_timestamp := "2024-12-01T00:00:01.500Z";
               reply_usage := {| inputTokens := 0; outputTokens := 0; totalTokens := 0;
                                 inputCost := 0; outputCost := 0; totalCost := 0 |} |}.
Proof.
  split; [reflexivity|].
  exact (callGeminiAPI_without_usage_metadata (answer "{}" None) "{}" eq_refl).
Defined.




(** The fourth case at work: the only value generation fails, and the
    descriptor carries a usage whose input cost is a string, or whose input
    tokens are an object with a [toString] key of its own. *)
Example carried_usage_can_throw :
  analyzeFormsComplete (carrying (Str.dq "{'inputCost':'abc'}"))
    = Throws (TypeError "totalUsage.inputCost.toFixed is not a function") /\
  analyzeFormsComplete (carrying (Str.dq "{'inputTokens':{'toString':1}}"))
    = Throws (TypeError "Cannot convert object to primitive value").
Proof. split; vm_compute; reflexivity. Qed.

(** ** What the expressions match *)

(** X6.  The two fence expressions of the reply parsing find a match exactly
    in the texts that hold a block of their shape: an opening fence (labeled
    [json] for the first expression) and a line break, any content, a line
    break and a closing fence.  What they capture is the content of such a
    block of the text. *)
Theorem fence_expressions_characterised :
  forall text,
    (Regex.json_fence text <> None <->
       exists inner, fenced (Regex.fence ++ "json" ++ Str.nl) inner text) /\
    (forall inner, Regex.json_fence text = Some inner ->
       fenced (Regex.fence ++ "json" ++ Str.nl) inner text) /\
    (Regex.plain_fence text <> None <->
       exists inner, fenced (Regex.fence ++ Str.nl) inner text) /\
    (forall inner, Regex.plain_fence text = Some inner ->
       fenced (Regex.fence ++ Str.nl) inner text).
Proof.
  intros text. unfold Regex.json_fence, Regex.plain_fence.
  assert (H : forall open,
            (Regex.fence_match open text <> None <-> exists inner, fenced open inner text) /\
            (forall inner, Regex.fence_match open text = Some inner -> fenced open inner text)).
  { intros open. split; [split|].
    - destruct (Regex.fence_match open text) as [inner|] eqn:E; [|congruence].
      intros _. exists inner. exact (FenceFacts.fence_match_sound _ _ _ E).
    - intros [inner Hf]. exact (FenceFacts.fence_match_complete _ _ _ Hf).
    - intros inner. apply FenceFacts.fence_match_sound. }
  destruct (H (Regex.fence ++ "json" ++ Str.nl)) as [H1 H2].
  destruct (H (Regex.fence ++ Str.nl)) as [H3 H4].
  auto.
Qed.

(** X7.  A reply that holds no fence is parsed as a whole: [extractForms]
    and [generateFieldValues] then return what [JSON.parse] makes of the
    entire text, or fail with its error. *)
Theorem reply_without_fence_parsed_whole :
  forall text,
    Str.includes text Regex.fence = false ->
    parseReply text = JSON_parse text.
Proof.
  intros text H. unfold parseReply.
  destruct (Regex.json_fence text) as [c|] eqn:E1.
  - apply FenceFacts.fence_match_sound in E1.
    apply (FenceFacts.fenced_includes ("json" ++ Str.nl)) in E1. congruence.
  - destruct (Regex.plain_fence text) as [c|] eqn:E2; [|reflexivity].
    apply FenceFacts.fence_match_sound in E2.
    apply (FenceFacts.fenced_includes Str.nl) in E2. congruence.
Qed.

Lemma reply_without_fence_parsed_whole_witness :
  Str.includes bare_json Regex.fence = false /\
  parseReply bare_json = JSON_parse bare_json.
Proof.
  split; [vm_compute; reflexivity|].
  apply (reply_without_fence_parsed_whole bare_json). vm_compute. reflexivity.
Defined.

(** X8.  Every source that the iframe expression captures in a page is not
    empty, holds no quote character, and stands in the page between two quote
    characters, which need not be the same one. *)
Theorem discovered_sources_are_quoted :
  forall html src,
    In src (Regex.exec_all 0 html) -> captured src html.
Proof. intros html src. apply IframeFacts.exec_all_sound. Qed.

Lemma discovered_sources_are_quoted_witness :
  In "/x" (Regex.exec_all 0 framed_page) /\ captured "/x" framed_page.
Proof.
  split; [vm_compute; auto|].
  apply (discovered_sources_are_quoted framed_page "/x"). vm_compute. auto.
Defined.

(** X9.  A page in which the text [<iframe] does not occur, in any case, has
    no source to discover: for every base location and whatever the network
    would answer, [fetchWithIframes] returns the page alone, with no iframe
    and no [stats]. *)
Theorem page_without_iframe_tag :
  forall (url : UrlApi) html,
    Str.includes_ci html "<iframe" = false ->
    Regex.exec_all 0 html = [] /\
    forall pageUrl net,
      extractIframeSrcs html pageUrl = [] /\
      fetchWithIframes pageUrl (Body html) net
        = Returns {| mainHtml := html; iframes := []; combinedHtml := html; stats := None |}.
Proof.
  intros url html H.
  pose proof (IframeFacts.exec_all_none html 0 H) as He.
  split; [exact He|]. intros pageUrl net.
  assert (Hs : extractIframeSrcs html pageUrl = [])
    by (unfold extractIframeSrcs; rewrite He; reflexivity).
  split; [exact Hs|]. unfold fetchWithIframes. rewrite Hs. reflexivity.
Qed.

Lemma page_without_iframe_tag_witness :
  Str.includes_ci plain_page "<iframe" = false /\
  Regex.exec_all 0 plain_page = [] /\
  forall pageUrl net,
    @extractIframeSrcs RefUrl.api plain_page pageUrl = [] /\
    @fetchWithIframes RefUrl.api pageUrl (Body plain_page) net
      = Returns {| mainHtml := plain_page; iframes := [];
                   combinedHtml := plain_page; stats := None |}.
Proof.
  split; [vm_compute; reflexivity|].
  apply (page_without_iframe_tag RefUrl.api plain_page). vm_compute. reflexivity.
Defined.

(** X10.  When the base location is not a valid URL, discovery keeps exactly
    the captured sources that start with [http://] or [https://], unchanged
    and in order: every other source needs the origin of the base, and the
    failure to compute it is caught and skips the source. *)
Theorem discovery_with_invalid_base :
  forall (url : UrlApi) html baseUrl,
    URL_origin baseUrl = None ->
    extractIframeSrcs html baseUrl = filter absoluteHttp (Regex.exec_all 0 html).
Proof.
  intros url html baseUrl Ho. unfold extractIframeSrcs.
  induction (Regex.exec_all 0 html) as [|s found IH]; [reflexivity|].
  cbn [pushAll filter]. rewrite FetcherFacts.resolveSrc_cases.
  destruct (excluded s) eqn:Hx.
  - rewrite (ServiceFacts.excluded_not_http s Hx). exact IH.
  - destruct (absoluteHttp s); [now rewrite IH|].
    unfold againstOrigin. rewrite Ho. exact IH.
Qed.

(** The base [https://] has no host; of the three frames of the page only
    the absolute one is kept. *)
Lemma discovery_with_invalid_base_witness :
  RefUrl.origin "https://" = RefUrl.Invalid /\
  @extractIframeSrcs RefUrl.api framed_page "https://" = ["https://ads.example.org/banner"].
Proof.
  split; [vm_compute; reflexivity|].
  rewrite (discovery_with_invalid_base RefUrl.api framed_page "https://");
    vm_compute; reflexivity.
Defined.

(** X11.  When every iframe request fails, [fetchWithIframes] still returns:
    the combined text is the main document alone, every discovered source has
    an entry that is marked failed with an empty content and the message of
    its own failure, and the statistics count all of them as failed. *)
Theorem all_iframe_fetches_fail :
  forall (url : UrlApi) pageUrl html net cause,
    extractIframeSrcs html pageUrl <> [] ->
    (forall i s, net i s = Failed (cause i s)) ->
    exists result,
      fetchWithIframes pageUrl (Body html) net = Returns result /\
      combinedHtml result = html /\
      (forall i s, nth_error (extractIframeSrcs html pageUrl) i = Some s ->
         nth_error (iframes result) i
           = Some {| src := s; content := ""; success := false;
                     error := Some (message (cause i s)) |}) /\
      stats result
        = Some {| totalIframes := Z.of_nat (List.length (extractIframeSrcs html pageUrl));
                  successfulIframes := 0;
                  failedIframes := Z.of_nat (List.length (extractIframeSrcs html pageUrl)) |}.
Proof.
  intros url pageUrl html net cause Hne Hnet.
  assert (Hall : forall srcs index,
            Forall (fun entry => success entry = false) (fetchAllFrom index net srcs)).
  { induction srcs as [|s srcs IH]; intros index; cbn [fetchAllFrom]; constructor.
    - rewrite Hnet. reflexivity.
    - apply IH. }
  assert (Hcount : forall l, Forall (fun entry => success entry = false) l -> count l = 0%Z).
  { unfold count. induction l as [|entry l IH]; intros Hl; [reflexivity|].
    inversion Hl as [|x l' Hx Hrest]; subst. cbn [filter]. rewrite Hx. exact (IH Hrest). }
  assert (Hpieces : forall l index, Forall (fun entry => success entry = false) l ->
            pieces contributes index l = "").
  { induction l as [|entry l IH]; intros index Hl; [reflexivity|].
    inversion Hl as [|x l' Hx Hrest]; subst. cbn [pieces]. unfold contributes at 1.
    rewrite Hx. cbn [andb]. exact (IH _ Hrest). }
  unfold fetchWithIframes.
  destruct (extractIframeSrcs html pageUrl) as [|s0 srcs] eqn:Hs; [congruence|].
  cbn [List.length Nat.eqb]. eexists. split; [reflexivity|].
  cbn [combinedHtml iframes stats]. split; [|split].
  - unfold combineHtml. rewrite FetcherFacts.appendFrom_pieces, Hpieces by apply Hall.
    apply StrFacts.append_empty_r.
  - intros i s Hi. rewrite (FetcherFacts.fetchAllFrom_nth _ 0 net i s Hi).
    cbn [Nat.add]. rewrite Hnet. reflexivity.
  - rewrite Hcount by apply Hall. rewrite Z.sub_0_r. reflexivity.
Qed.

Lemma all_iframe_fetches_fail_witness :
  exists result,
    @fetchWithIframes RefUrl.api page_url (Body framed_page) unreachable = Returns result /\
    combinedHtml result = framed_page /\
    (forall i s, nth_error (@extractIframeSrcs RefUrl.api framed_page page_url) i = Some s ->
       nth_error (iframes result) i
         = Some {| src := s; content := ""; success := false;
                   error := Some "HTTP 503: Service Unavailable" |}) /\
    stats result
      = Some {| totalIframes := Z.of_nat (List.length (@extractIframeSrcs RefUrl.api framed_page page_url));
                successfulIframes := 0;
                failedIframes := Z.of_nat (List.length (@extractIframeSrcs RefUrl.api framed_page page_url)) |}.
Proof.
  apply (all_iframe_fetches_fail RefUrl.api page_url framed_page unreachable
           (fun _ _ => Error "HTTP 503: Service Unavailable")).
  - vm_compute. discriminate.
  - reflexivity.
Defined.

(** ** The routes *)





(** X15.  The two URL routes check the address before anything else,
    whatever the network and the model would answer.  A missing or falsy
    [url] is answered 400 [URL is required].  A truthy [url] on which
    [new URL] throws is answered 400 [Invalid URL format]: a string that is
    not a valid URL, and every number, [true], object, or array whose text
    holds no colon.  An answer with status 400 has one of these causes. *)
Theorem url_routes_validate_first :
  forall (url : UrlApi) body main net run now,
    (missing (get "url" body) = true ->
       postFetchUrl body main net = Returns (badRequest "URL is required") /\
       postAnalyzeUrl body main net run now = Returns (badRequest "URL is required")) /\
    (forall u, get "url" body = Some (JStr u) -> u <> "" -> URL_origin u = None ->
       postFetchUrl body main net = Returns (badRequest "Invalid URL format") /\
       postAnalyzeUrl body main net run now = Returns (badRequest "Invalid URL format")) /\
    (forall v, get "url" body = Some v -> noAddress v = true ->
       postFetchUrl body main net = Returns (badRequest "Invalid URL format") /\
       postAnalyzeUrl body main net run now = Returns (badRequest "Invalid URL format")) /\
    (forall r, postFetchUrl body main net = Returns r -> statusCode r = 400 ->
       missing (get "url" body) = true \/
       (exists u, get "url" body = Some (JStr u) /\ URL_origin u = None) \/
       (exists v, get "url" body = Some v /\ noAddress v = true)) /\
    (forall r, postAnalyzeUrl body main net run now = Returns r -> statusCode r = 400 ->
       missing (get "url" body) = true \/
       (exists u, get "url" body = Some (JStr u) /\ URL_origin u = None) \/
       (exists v, get "url" body = Some v /\ noAddress v = true)).
Proof.
  intros url body main net run now. unfold postFetchUrl, postAnalyzeUrl.
  split; [|split; [|split; [|split]]].
  - intros H. rewrite !(RouteFacts.checkedUrl_missing body H). split; reflexivity.
  - intros u Hg Hu Ho. rewrite !(RouteFacts.checkedUrl_invalid body u Hg Hu Ho).
    split; reflexivity.
  - intros v Hg Hn. rewrite !(RouteFacts.checkedUrl_noAddress body v Hg Hn).
    split; reflexivity.
  - intros r.
    destruct (@RouteFacts.checkedUrl_cases url FetchedPage body)
      as [H|[[Hm H]|[(u & Hg & Hu & Ho & H)|[(v & Hg & Hn & H)|(u & Hg & Hu & Ho & H)]]]];
      rewrite H.
    + discriminate.
    + auto.
    + intros _ _. right. left. exists u. auto.
    + intros _ _. right. right. exists v. auto.
    + intros Hr. apply RouteFacts.answering_cases in Hr.
      destruct Hr as [([result st] & _ & ->)|(error & _ & ->)]; discriminate.
  - intros r.
    destruct (@RouteFacts.checkedUrl_cases url AnalyzedPage body)
      as [H|[[Hm H]|[(u & Hg & Hu & Ho & H)|[(v & Hg & Hn & H)|(u & Hg & Hu & Ho & H)]]]];
      rewrite H.
    + discriminate.
    + auto.
    + intros _ _. right. left. exists u. auto.
    + intros _ _. right. right. exists v. auto.
    + intros Hr. apply RouteFacts.answering_cases in Hr.
      destruct Hr as [([[fetchResult st] result] & _ & ->)|(error & _ & ->)]; discriminate.
Qed.

(** A body without [url], the address [https://], which has no host, and
    the number 123 in the place of an address. *)
Lemma url_routes_validate_first_witness :
  (missing (get "url" no_keys) = true /\
   @postFetchUrl RefUrl.api no_keys (Body plain_page) unreachable
     = Returns (badRequest "URL is required") /\
   @postAnalyzeUrl RefUrl.api no_keys (Body plain_page) unreachable second_fails now
     = Returns (badRequest "URL is required")) /\
  (get "url" (for_url "https://") = Some (JStr "https://") /\
   RefUrl.origin "https://" = RefUrl.Invalid /\
   @postFetchUrl RefUrl.api (for_url "https://") (Body plain_page) unreachable
     = Returns (badRequest "Invalid URL format") /\
   @postAnalyzeUrl RefUrl.api (for_url "https://") (Body plain_page) unreachable
       second_fails now
     = Returns (badRequest "Invalid URL format")) /\
  (get "url" (with_url (JNum 123)) = Some (JNum 123) /\
   noAddress (JNum 123) = true /\
   @postFetchUrl RefUrl.api (with_url (JNum 123)) (Body plain_page) unreachable
     = Returns (badRequest "Invalid URL format") /\
   @postAnalyzeUrl RefUrl.api (with_url (JNum 123)) (Body plain_page) unreachable
       second_fails now
     = Returns (badRequest "Invalid URL format")).
Proof.
  pose proof (url_routes_validate_first RefUrl.api no_keys (Body plain_page)
                unreachable second_fails now) as [Hmissing _].
  pose proof (url_routes_validate_first RefUrl.api (for_url "https://") (Body plain_page)
                unreachable second_fails now) as [_ [Hinvalid _]].
  pose proof (url_routes_validate_first RefUrl.api (with_url (JNum 123)) (Body plain_page)
                unreachable second_fails now) as [_ [_ [Hnumber _]]].
  split; [|split].
  - split; [reflexivity|]. apply Hmissing. reflexivity.
  - split; [reflexivity|]. split; [vm_compute; reflexivity|].
    apply (Hinvalid "https://").
    + reflexivity.
    + discriminate.
    + vm_compute. reflexivity.
  - split; [reflexivity|]. split; [vm_compute; reflexivity|].
    apply (Hnumber (JNum 123)).
    + reflexivity.
    + vm_compute. reflexivity.
Defined.

(** X16.  [POST /fetch-url] answers 200 exactly when the payload reports
    success, and exactly when [url] is a valid address, the page is fetched
    and at least one iframe source is discovered in it; the data is then the
    combined text, its length, the address and the statistics of the
    fetch. *)
Theorem postFetchUrl_status :
  forall (url : UrlApi) body main net r,
    postFetchUrl body main net = Returns r ->
    (statusCode r = 200 <-> succeeded r = true) /\
    (statusCode r = 200 <->
       exists u html result st,
         get "url" body = Some (JStr u) /\ u <> "" /\ URL_origin u <> None /\
         main = Body html /\ extractIframeSrcs html u <> [] /\
         fetchWithIframes u main net = Returns result /\ stats result = Some st /\
         payload r = Succeeded {| htmlContent := combinedHtml result;
                                  contentLength := Str.length16 (combinedHtml result);
                                  requestedUrl := u;
                                  iframeStats := st |} None).
Proof.
  intros url body main net r. unfold postFetchUrl.
  destruct (@RouteFacts.checkedUrl_cases url FetchedPage body)
    as [H|[[_ H]|[(u & Hg & Hu & Ho & H)|[(v & Hg & Hn & H)|(u & Hg & Hu & Ho & H)]]]];
    rewrite H.
  - discriminate.
  - intros E; injection E as <-. cbn [statusCode payload succeeded serverError badRequest]. split; [split; discriminate|].
    split; [discriminate|].
    intros (u & html & result & st & Hg & Hu & Ho & _).
    rewrite (RouteFacts.checkedUrl_valid body u Hg Hu Ho) in H. discriminate.
  - intros E; injection E as <-. cbn [statusCode payload succeeded serverError badRequest]. split; [split; discriminate|].
    split; [discriminate|].
    intros (u' & html & result & st & Hg' & Hu' & Ho' & _).
    rewrite (RouteFacts.checkedUrl_valid body u' Hg' Hu' Ho') in H. discriminate.
  - intros E; injection E as <-. cbn [statusCode payload succeeded serverError badRequest]. split; [split; discriminate|].
    split; [discriminate|].
    intros (u' & html & result & st & Hg' & Hu' & Ho' & _).
    rewrite (RouteFacts.checkedUrl_valid body u' Hg' Hu' Ho') in H. discriminate.
  - pose proof (RouteFacts.fetchAndLog_cases u main net) as Hc.
    destruct main as [html|e0].
    + destruct (extractIframeSrcs html u) as [|s srcs] eqn:Hs.
      * rewrite Hc. cbn [answering]. intros E; injection E as <-. cbn.
        split; [split; discriminate|]. split; [discriminate|].
        intros (u' & html' & result & st & Hg' & _ & _ & Hm & Hne & _).
        rewrite Hg in Hg'. injection Hg' as <-. injection Hm as <-. congruence.
      * destruct Hc as (result & st & Hfetch & Hst & Hc). rewrite Hc. cbn [answering].
        intros E; injection E as <-. cbn [statusCode payload succeeded serverError badRequest]. split; [split; reflexivity|].
        split; [|reflexivity]. intros _.
        exists u, html, result, st. rewrite Hs. repeat split; auto. discriminate.
    + rewrite Hc. cbn [answering]. intros E; injection E as <-. cbn.
      split; [split; discriminate|]. split; [discriminate|].
      intros (u' & html' & result & st & _ & _ & _ & Hm & _). discriminate.
Qed.

Lemma postFetchUrl_status_witness :
  exists r,
    @postFetchUrl RefUrl.api (for_url page_url) (Body framed_page) second_missing = Returns r /\
    statusCode r = 200 /\ succeeded r = true /\
    exists u html result st,
      get "url" (for_url page_url) = Some (JStr u) /\ u <> "" /\
      @URL_origin RefUrl.api u <> None /\
      Body framed_page = Body html /\ @extractIframeSrcs RefUrl.api html u <> [] /\
      @fetchWithIframes RefUrl.api u (Body framed_page) second_missing = Returns result /\
      stats result = Some st /\
      payload r = Succeeded {| htmlContent := combinedHtml result;
                               contentLength := Str.length16 (combinedHtml result);
                               requestedUrl := u;
                               iframeStats := st |} None.
Proof.
  eexists. split; [vm_compute; reflexivity|]. split; [reflexivity|].
  destruct (postFetchUrl_status RefUrl.api (for_url page_url) (Body framed_page)
              second_missing _ ltac:(vm_compute; reflexivity)) as [H1 H2].
  split; [apply H1; reflexivity|apply H2; reflexivity].
Defined.

(** X17.  For a valid address whose page has no iframe source, both URL
    routes answer 500 with the [TypeError] of reading [successfulIframes] of
    an undefined [stats], although the page was fetched; the analysis of
    [POST /analyze-url] is not reached, whatever the model would answer. *)
Theorem url_routes_fail_without_iframes :
  forall (url : UrlApi) u html net run now,
    u <> "" -> URL_origin u <> None ->
    extractIframeSrcs html u = [] ->
    postFetchUrl (for_url u) (Body html) net = Returns (serverError undefined_stats) /\
    postAnalyzeUrl (for_url u) (Body html) net run now
      = Returns (serverError undefined_stats).
Proof.
  intros url u html net run now Hu Ho Hs. unfold postFetchUrl, postAnalyzeUrl.
  rewrite !(RouteFacts.checkedUrl_valid (for_url u) u eq_refl Hu Ho).
  pose proof (RouteFacts.fetchAndLog_cases u (Body html) net) as Hc.
  cbv iota beta in Hc. rewrite Hs in Hc. rewrite Hc. split; reflexivity.
Qed.

Lemma url_routes_fail_without_iframes_witness :
  page_url <> "" /\ @URL_origin RefUrl.api page_url <> None /\
  @extractIframeSrcs RefUrl.api plain_page page_url = [] /\
  @postFetchUrl RefUrl.api (for_url page_url) (Body plain_page) unreachable
    = Returns {| statusCode := 500;
                 payload := Refused
                   "Cannot read properties of undefined (reading 'successfulIframes')" |} /\
  @postAnalyzeUrl RefUrl.api (for_url page_url) (Body plain_page) unreachable second_fails now
    = Returns {| statusCode := 500;
                 payload := Refused
                   "Cannot read properties of undefined (reading 'successfulIframes')" |}.
Proof.
  split; [discriminate|]. split; [vm_compute; discriminate|].
  split; [vm_compute; reflexivity|].
  apply (url_routes_fail_without_iframes RefUrl.api page_url plain_page unreachable
           second_fails now).
  - discriminate.
  - vm_compute. discriminate.
  - vm_compute. reflexivity.
Defined.

(** X18.  [POST /analyze-url] answers 200 exactly when the payload reports
    success, and exactly when [url] is a valid address, the page is fetched,
    at least one iframe source is discovered in it and the analysis returns;
    the data is then the analysis with the address, the length of the
    combined text and the statistics of the fetch, and the payload carries
    the time of the answer. *)
Theorem postAnalyzeUrl_status :
  forall (url : UrlApi) body main net run now r,
    postAnalyzeUrl body main net run now = Returns r ->
    (statusCode r = 200 <-> succeeded r = true) /\
    (statusCode r = 200 <->
       exists u html fetchResult st result,
         get "url" body = Some (JStr u) /\ u <> "" /\ URL_origin u <> None /\
         main = Body html /\ extractIframeSrcs html u <> [] /\
         fetchWithIframes u main net = Returns fetchResult /\
         stats fetchResult = Some st /\
         analyzeFormsComplete run = Returns result /\
         payload r = Succeeded {| analysis := result;
                                  sourceUrl := u;
                                  htmlLength := Str.length16 (combinedHtml fetchResult);
                                  pageStats := st |} (Some now)).
Proof.
  intros url body main net run now r. unfold postAnalyzeUrl.
  destruct (@RouteFacts.checkedUrl_cases url AnalyzedPage body)
    as [H|[[_ H]|[(u & Hg & Hu & Ho & H)|[(v & Hg & Hn & H)|(u & Hg & Hu & Ho & H)]]]];
    rewrite H.
  - discriminate.
  - intros E; injection E as <-. cbn [statusCode payload succeeded serverError badRequest]. split; [split; discriminate|].
    split; [discriminate|].
    intros (u & html & fr & st & result & Hg & Hu & Ho & _).
    rewrite (RouteFacts.checkedUrl_valid body u Hg Hu Ho) in H. discriminate.
  - intros E; injection E as <-. cbn [statusCode payload succeeded serverError badRequest]. split; [split; discriminate|].
    split; [discriminate|].
    intros (u' & html & fr & st & result & Hg' & Hu' & Ho' & _).
    rewrite (RouteFacts.checkedUrl_valid body u' Hg' Hu' Ho') in H. discriminate.
  - intros E; injection E as <-. cbn [statusCode payload succeeded serverError badRequest]. split; [split; discriminate|].
    split; [discriminate|].
    intros (u' & html & fr & st & result & Hg' & Hu' & Ho' & _).
    rewrite (RouteFacts.checkedUrl_valid body u' Hg' Hu' Ho') in H. discriminate.
  - pose proof (RouteFacts.fetchAndLog_cases u main net) as Hc.
    destruct main as [html|e0].
    + destruct (extractIframeSrcs html u) as [|s srcs] eqn:Hs.
      * rewrite Hc. cbn [bind answering]. intros E; injection E as <-. cbn.
        split; [split; discriminate|]. split; [discriminate|].
        intros (u' & html' & fr & st & result & Hg' & _ & _ & Hm & Hne & _).
        rewrite Hg in Hg'. injection Hg' as <-. injection Hm as <-. congruence.
      * destruct Hc as (fr & st & Hfetch & Hst & Hc). rewrite Hc. cbn [bind].
        destruct (analyzeFormsComplete run) as [result|e1|] eqn:Ha; cbn [bind answering].
        -- intros E; injection E as <-. cbn [statusCode payload succeeded serverError badRequest]. split; [split; reflexivity|].
           split; [|reflexivity]. intros _.
           exists u, html, fr, st, result. rewrite Hs. repeat split; auto. discriminate.
        -- intros E; injection E as <-. cbn [statusCode payload succeeded serverError badRequest]. split; [split; discriminate|].
           split; [discriminate|].
           intros (u' & html' & fr' & st' & result & _ & _ & _ & _ & _ & _ & _ & Hr & _).
           discriminate.
        -- discriminate.
    + rewrite Hc. cbn [bind answering]. intros E; injection E as <-. cbn.
      split; [split; discriminate|]. split; [discriminate|].
      intros (u' & html' & fr & st & result & _ & _ & _ & Hm & _). discriminate.
Qed.

Lemma postAnalyzeUrl_status_witness :
  exists r,
    @postAnalyzeUrl RefUrl.api (for_url page_url) (Body framed_page) second_missing
      second_fails now = Returns r /\
    statusCode r = 200 /\ succeeded r = true /\
    exists u html fetchResult st result,
      get "url" (for_url page_url) = Some (JStr u) /\ u <> "" /\
      @URL_origin RefUrl.api u <> None /\
      Body framed_page = Body html /\ @extractIframeSrcs RefUrl.api html u <> [] /\
      @fetchWithIframes RefUrl.api u (Body framed_page) second_missing = Returns fetchResult /\
      stats fetchResult = Some st /\
      analyzeFormsComplete second_fails = Returns result /\
      payload r = Succeeded {| analysis := result;
                               sourceUrl := u;
                               htmlLength := Str.length16 (combinedHtml fetchResult);
                               pageStats := st |} (Some now).
Proof.
  eexists. split; [vm_compute; reflexivity|]. split; [reflexivity|].
  destruct (postAnalyzeUrl_status RefUrl.api (for_url page_url) (Body framed_page)
              second_missing second_fails now _ ltac:(vm_compute; reflexivity)) as [H1 H2].
  split; [apply H1; reflexivity|apply H2; reflexivity].
Defined.

(** ** The benchmark's fetch step *)

(** X19.  [fetchWebsite], given the answer of [POST /fetch-url] for a valid
    address, succeeds exactly when the page was fetched and at least one
    iframe source was discovered in it, and then carries the combined text and
    its length.  For a page without iframe source it fails with the message
    of the [TypeError] on the undefined [stats]; when the page could not be
    fetched it fails with the message of that failure, or with [HTTP 500]
    when that message is empty. *)
Theorem fetchWebsite_through_route :
  forall (url : UrlApi) u main net startTime endTime,
    u <> "" -> URL_origin u <> None ->
    exists r,
      postFetchUrl (for_url u) main net = Returns r /\
      fetchWebsite (Replied r) startTime endTime =
        match main with
        | Body html =>
            match extractIframeSrcs html u with
            | [] => fetchFailed undefined_stats (endTime - startTime)
            | srcs =>
                let combined := combineHtml html (fetchAllFrom 0 net srcs) in
                {| fetch_success := true;
                   fetch_htmlContent := Some combined;
                   fetch_htmlLength := Some (Str.length16 combined);
                   fetch_error := None;
                   fetchTime := (endTime - startTime)%float |}
            end
        | Failed e =>
            fetchFailed (Error (if String.eqb (message e) "" then "HTTP 500" else message e))
              (endTime - startTime)
        end.
Proof.
  intros url u main net startTime endTime Hu Ho. unfold postFetchUrl.
  rewrite (RouteFacts.checkedUrl_valid (for_url u) u eq_refl Hu Ho).
  unfold fetchAndLog, fetchWithIframes. destruct main as [html|e].
  - destruct (extractIframeSrcs html u) as [|s srcs];
      cbn [List.length Nat.eqb bind statsOf stats answering];
      eexists; (split; [reflexivity|]); reflexivity.
  - cbn [bind answering]. eexists. split; [reflexivity|].
    unfold fetchWebsite. cbn [statusCode payload serverError ok].
    destruct (String.eqb (message e) ""); reflexivity.
Qed.

(** The page without frames, and the page with three frames. *)
Lemma fetchWebsite_through_route_witness :
  page_url <> "" /\ @URL_origin RefUrl.api page_url <> None /\
  (exists r,
     @postFetchUrl RefUrl.api (for_url page_url) (Body plain_page) unreachable = Returns r /\
     fetchWebsite (Replied r) 1000 1250 =
       {| fetch_success := false;
          fetch_htmlContent := None;
          fetch_htmlLength := None;
          fetch_error :=
            Some "Cannot read properties of undefined (reading 'successfulIframes')";
          fetchTime := 250 |}) /\
  (exists r,
     @postFetchUrl RefUrl.api (for_url page_url) (Body framed_page) second_missing
       = Returns r /\
     fetch_success (fetchWebsite (Replied r) 1000 1250) = true).
Proof.
  split; [discriminate|]. split; [vm_compute; discriminate|].
  split.
  - destruct (fetchWebsite_through_route RefUrl.api page_url (Body plain_page) unreachable
                1000 1250) as (r & Hr & Hf).
    + discriminate.
    + vm_compute. discriminate.
    + exists r. split; [exact Hr|]. rewrite Hf. vm_compute. reflexivity.
  - destruct (fetchWebsite_through_route RefUrl.api page_url (Body framed_page) second_missing
                1000 1250) as (r & Hr & Hf).
    + discriminate.
    + vm_compute. discriminate.
    + exists r. split; [exact Hr|]. rewrite Hf. vm_compute. reflexivity.
Defined.
